(** * White-lotus inventory service: stock ledger and reservation entities

    A shallow embedding of [internal/domain/entity/stock_item.go],
    [internal/domain/entity/reservation.go] and of the pending-entry query of
    [internal/infrastructure/kafka/producer/outbox_publisher.go], with the
    properties the specification states about them. The other entities of
    the package ([stock_movement.go], [product.go], [warehouse.go],
    [low_stock_alert.go]), the retry backoff and the marking of outbox rows,
    and the permission checks of [rbac_middleware.go] follow, with the
    properties their code shows.

    Conventions of the embedding:
    - Go's [int] is the 64-bit two's complement integer: a [Z] kept in range
      by [wrap], every [+=] and [-=] written with its wrap-around;
    - [time.Time] is an instant, a [Z]; [time.Now()] reads a clock, modelled
      as the sequence of the readings still to come, threaded through every
      method by a small state monad;
    - a pointer-receiver method [func (s *T) m(args) error] is a function
      from the receiver's value to the receiver's new value paired with the
      returned error ([None] is Go's [nil]);
    - [errors.New] values are compared by identity, hence an enumeration. *)

From Stdlib Require Import ZArith Lia Bool List String.
From Stdlib Require Import Sorting.Sorted Sorting.Permutation.
Import ListNotations.

Local Open Scope string_scope.
Local Open Scope Z_scope.

(** ** Machine integers *)

Module GoInt.

Definition bits : Z := 64.
Definition modulus : Z := 2 ^ bits.
Definition min_int : Z := - 2 ^ (bits - 1).
Definition max_int : Z := 2 ^ (bits - 1) - 1.

(** The value of an [int] expression whose mathematical result is [z]. *)
Definition wrap (z : Z) : Z := (z - min_int) mod modulus + min_int.

Definition add (a b : Z) : Z := wrap (a + b).
Definition sub (a b : Z) : Z := wrap (a - b).

Definition in_range (z : Z) : Prop := min_int <= z <= max_int.

End GoInt.

(** ** The wall clock *)

Definition Time := Z.

(** [t.After(u)] *)
Definition After (t u : Time) : bool := u <? t.

(** The readings [time.Now()] will return, the next one first. *)
Definition Clock := nat -> Time.

Definition M (A : Type) : Type := Clock -> A * Clock.

Definition ret {A} (a : A) : M A := fun c => (a, c).

Definition bind {A B} (m : M A) (k : A -> M B) : M B :=
  fun c => let (a, c') := m c in k a c'.

Notation "x <- m ;; k" := (bind m (fun x => k))
  (at level 61, m at next level, right associativity).

(** [time.Now().UTC()]: the instant is the same in every location. *)
Definition time_Now : M Time := fun c => (c 0%nat, fun n => c (S n)).

(** ** Errors of package [entity] *)

Inductive error : Type :=
| ErrStockItemIDRequired
| ErrStockItemProductRequired
| ErrStockItemWarehouseRequired
| ErrQuantityNegative
| ErrInsufficientStock
| ErrInsufficientReserved
| ErrReorderPointNegative
| ErrReorderQuantityNegative
| ErrReservationIDRequired
| ErrReservationOrderRequired
| ErrReservationItemsRequired
| ErrReservationItemQuantity
| ErrReservationNotPending
| ErrReservationNotConfirmed
| ErrReservationAlreadyReleased
| ErrReservationAlreadyFulfilled
| ErrReservationExpired.

(** ** Stock items ([stock_item.go]) *)

Module Stock.

Record StockItem : Type := mkStockItem {
  ID : string;
  ProductID : string;
  WarehouseID : string;
  QuantityOnHand : Z;
  QuantityReserved : Z;
  ReorderPoint : Z;
  ReorderQuantity : Z;
  CreatedAt : Time;
  UpdatedAt : Time
}.

Definition set_QuantityOnHand (v : Z) (s : StockItem) : StockItem :=
  mkStockItem (ID s) (ProductID s) (WarehouseID s) v (QuantityReserved s)
    (ReorderPoint s) (ReorderQuantity s) (CreatedAt s) (UpdatedAt s).

Definition set_QuantityReserved (v : Z) (s : StockItem) : StockItem :=
  mkStockItem (ID s) (ProductID s) (WarehouseID s) (QuantityOnHand s) v
    (ReorderPoint s) (ReorderQuantity s) (CreatedAt s) (UpdatedAt s).

Definition set_UpdatedAt (t : Time) (s : StockItem) : StockItem :=
  mkStockItem (ID s) (ProductID s) (WarehouseID s) (QuantityOnHand s)
    (QuantityReserved s) (ReorderPoint s) (ReorderQuantity s) (CreatedAt s) t.

(** [NewStockItem]: the item, or the validation error. *)
Definition NewStockItem (id productID warehouseID : string)
    (reorderPoint reorderQuantity : Z) : M (option StockItem * option error) :=
  if String.eqb id "" then ret (None, Some ErrStockItemIDRequired)
  else if String.eqb productID "" then ret (None, Some ErrStockItemProductRequired)
  else if String.eqb warehouseID ""
       then ret (None, Some ErrStockItemWarehouseRequired)
  else if reorderPoint <? 0 then ret (None, Some ErrReorderPointNegative)
  else if reorderQuantity <? 0 then ret (None, Some ErrReorderQuantityNegative)
  else
    now <- time_Now ;;
    ret (Some (mkStockItem id productID warehouseID 0 0
                 reorderPoint reorderQuantity now now), None).

Definition AvailableQuantity (s : StockItem) : Z :=
  GoInt.sub (QuantityOnHand s) (QuantityReserved s).

Definition Reserve (quantity : Z) (s : StockItem) : M (StockItem * option error) :=
  if quantity <? 0 then ret (s, Some ErrQuantityNegative)
  else if AvailableQuantity s <? quantity then ret (s, Some ErrInsufficientStock)
  else
    let s := set_QuantityReserved (GoInt.add (QuantityReserved s) quantity) s in
    now <- time_Now ;;
    ret (set_UpdatedAt now s, None).

Definition ReleaseReservation (quantity : Z) (s : StockItem)
    : M (StockItem * option error) :=
  if quantity <? 0 then ret (s, Some ErrQuantityNegative)
  else if QuantityReserved s <? quantity then ret (s, Some ErrInsufficientReserved)
  else
    let s := set_QuantityReserved (GoInt.sub (QuantityReserved s) quantity) s in
    now <- time_Now ;;
    ret (set_UpdatedAt now s, None).

Definition Fulfill (quantity : Z) (s : StockItem) : M (StockItem * option error) :=
  if quantity <? 0 then ret (s, Some ErrQuantityNegative)
  else if QuantityReserved s <? quantity then ret (s, Some ErrInsufficientReserved)
  else if QuantityOnHand s <? quantity then ret (s, Some ErrInsufficientStock)
  else
    let s := set_QuantityReserved (GoInt.sub (QuantityReserved s) quantity) s in
    let s := set_QuantityOnHand (GoInt.sub (QuantityOnHand s) quantity) s in
    now <- time_Now ;;
    ret (set_UpdatedAt now s, None).

Definition Replenish (quantity : Z) (s : StockItem) : M (StockItem * option error) :=
  if quantity <? 0 then ret (s, Some ErrQuantityNegative)
  else
    let s := set_QuantityOnHand (GoInt.add (QuantityOnHand s) quantity) s in
    now <- time_Now ;;
    ret (set_UpdatedAt now s, None).

(** The methods of [*StockItem] of type [func(quantity int) error]: the
    mutators the entity exposes. *)
Inductive Mutator : Type :=
| MReserve
| MReleaseReservation
| MFulfill
| MReplenish.

Definition call (m : Mutator) : Z -> StockItem -> M (StockItem * option error) :=
  match m with
  | MReserve => Reserve
  | MReleaseReservation => ReleaseReservation
  | MFulfill => Fulfill
  | MReplenish => Replenish
  end.

Definition NeedsReorder (s : StockItem) : bool :=
  AvailableQuantity s <=? ReorderPoint s.

Definition IsLowStock (s : StockItem) : bool :=
  AvailableQuantity s <=? ReorderPoint s.

(** The ledger invariant of the specification. *)
Definition invariant (s : StockItem) : Prop :=
  0 <= QuantityReserved s <= QuantityOnHand s.

(** Both counters hold values of type [int]. *)
Definition well_typed (s : StockItem) : Prop :=
  GoInt.in_range (QuantityOnHand s) /\ GoInt.in_range (QuantityReserved s).

(** The states a stock item goes through: created by [NewStockItem], then
    changed by successful calls of the mutators; [allowed] restricts the calls
    that are considered. *)
Inductive reachable (allowed : Mutator -> Z -> StockItem -> Prop)
    : StockItem -> Prop :=
| reachable_new id productID warehouseID reorderPoint reorderQuantity c s c' :
    NewStockItem id productID warehouseID reorderPoint reorderQuantity c
      = ((Some s, None), c') ->
    reachable allowed s
| reachable_call m quantity s c s' c' :
    reachable allowed s ->
    GoInt.in_range quantity ->
    allowed m quantity s ->
    call m quantity s c = ((s', None), c') ->
    reachable allowed s'.

Definition any_call : Mutator -> Z -> StockItem -> Prop :=
  fun _ _ _ => True.

(** A call of [Replenish] whose sum fits in an [int]; no condition on the
    other mutators. *)
Definition replenish_fits (m : Mutator) (quantity : Z) (s : StockItem) : Prop :=
  match m with
  | MReplenish => QuantityOnHand s + quantity <= GoInt.max_int
  | _ => True
  end.

(** The contract the specification gives an [adjust] mutator: a signed
    quantity that keeps the invariant is added to the on-hand counter. *)
Definition adjust_contract (f : Z -> StockItem -> M (StockItem * option error))
    : Prop :=
  forall s q c,
    invariant s -> well_typed s -> GoInt.in_range q ->
    GoInt.in_range (QuantityOnHand s + q) ->
    0 <= QuantityOnHand s + q ->
    QuantityReserved s <= QuantityOnHand s + q ->
    exists s' c',
      f q s c = ((s', None), c') /\
      QuantityOnHand s' = QuantityOnHand s + q.

End Stock.

(** ** Reservations ([reservation.go]) *)

Module Resv.

(** [type ReservationStatus string]: any string is a value of the type. *)
Definition ReservationStatus : Type := string.

Definition ReservationStatusPending : ReservationStatus := "PENDING".
Definition ReservationStatusConfirmed : ReservationStatus := "CONFIRMED".
Definition ReservationStatusReleased : ReservationStatus := "RELEASED".
Definition ReservationStatusFulfilled : ReservationStatus := "FULFILLED".
Definition ReservationStatusExpired : ReservationStatus := "EXPIRED".

Record ReservationItem : Type := mkReservationItem {
  StockItemID : string;
  ProductID : string;
  WarehouseID : string;
  Quantity : Z
}.

Record Reservation : Type := mkReservation {
  ID : string;
  OrderID : string;
  Items : list ReservationItem;
  Status : ReservationStatus;
  ExpiresAt : Time;
  CreatedAt : Time;
  UpdatedAt : Time;
  ReleasedAt : option Time;
  FulfilledAt : option Time
}.

Definition set_Status (v : ReservationStatus) (r : Reservation) : Reservation :=
  mkReservation (ID r) (OrderID r) (Items r) v (ExpiresAt r) (CreatedAt r)
    (UpdatedAt r) (ReleasedAt r) (FulfilledAt r).

Definition set_UpdatedAt (t : Time) (r : Reservation) : Reservation :=
  mkReservation (ID r) (OrderID r) (Items r) (Status r) (ExpiresAt r)
    (CreatedAt r) t (ReleasedAt r) (FulfilledAt r).

Definition set_ReleasedAt (t : option Time) (r : Reservation) : Reservation :=
  mkReservation (ID r) (OrderID r) (Items r) (Status r) (ExpiresAt r)
    (CreatedAt r) (UpdatedAt r) t (FulfilledAt r).

Definition set_FulfilledAt (t : option Time) (r : Reservation) : Reservation :=
  mkReservation (ID r) (OrderID r) (Items r) (Status r) (ExpiresAt r)
    (CreatedAt r) (UpdatedAt r) (ReleasedAt r) t.

(** [!=] on statuses *)
Definition neq (a b : ReservationStatus) : bool := negb (String.eqb a b).

Definition NewReservation (id orderID : string) (items : list ReservationItem)
    (expiresAt : Time) : M (option Reservation * option error) :=
  if String.eqb id "" then ret (None, Some ErrReservationIDRequired)
  else if String.eqb orderID "" then ret (None, Some ErrReservationOrderRequired)
  else if (List.length items =? 0)%nat
       then ret (None, Some ErrReservationItemsRequired)
  else if existsb (fun item => Quantity item <=? 0) items
       then ret (None, Some ErrReservationItemQuantity)
  else
    now <- time_Now ;;
    ret (Some (mkReservation id orderID items ReservationStatusPending
                 expiresAt now now None None), None).

Definition Confirm (r : Reservation) : M (Reservation * option error) :=
  if neq (Status r) ReservationStatusPending
  then ret (r, Some ErrReservationNotPending)
  else
    t <- time_Now ;;
    if After t (ExpiresAt r) then ret (r, Some ErrReservationExpired)
    else
      let r := set_Status ReservationStatusConfirmed r in
      now <- time_Now ;;
      ret (set_UpdatedAt now r, None).

Definition Release (r : Reservation) : M (Reservation * option error) :=
  if String.eqb (Status r) ReservationStatusReleased
  then ret (r, Some ErrReservationAlreadyReleased)
  else if String.eqb (Status r) ReservationStatusFulfilled
  then ret (r, Some ErrReservationAlreadyFulfilled)
  else
    now <- time_Now ;;
    let r := set_Status ReservationStatusReleased r in
    let r := set_ReleasedAt (Some now) r in
    ret (set_UpdatedAt now r, None).

Definition Fulfill (r : Reservation) : M (Reservation * option error) :=
  if String.eqb (Status r) ReservationStatusFulfilled
  then ret (r, Some ErrReservationAlreadyFulfilled)
  else if String.eqb (Status r) ReservationStatusReleased
  then ret (r, Some ErrReservationAlreadyReleased)
  else if neq (Status r) ReservationStatusConfirmed
          && neq (Status r) ReservationStatusPending
  then ret (r, Some ErrReservationNotConfirmed)
  else
    now <- time_Now ;;
    let r := set_Status ReservationStatusFulfilled r in
    let r := set_FulfilledAt (Some now) r in
    ret (set_UpdatedAt now r, None).

Definition Expire (r : Reservation) : M (Reservation * option error) :=
  if neq (Status r) ReservationStatusPending
     && neq (Status r) ReservationStatusConfirmed
  then ret (r, Some ErrReservationNotPending)
  else
    let r := set_Status ReservationStatusExpired r in
    now <- time_Now ;;
    ret (set_UpdatedAt now r, None).

Definition IsExpired (r : Reservation) : M bool :=
  now <- time_Now ;;
  ret (After now (ExpiresAt r)
       && neq (Status r) ReservationStatusFulfilled
       && neq (Status r) ReservationStatusReleased).

Definition TotalQuantity (r : Reservation) : Z :=
  fold_left (fun total item => GoInt.add total (Quantity item)) (Items r) 0.

(** The four mutators of the state machine. *)
Inductive Mutator : Type := MConfirm | MRelease | MFulfill | MExpire.

Definition call (m : Mutator) : Reservation -> M (Reservation * option error) :=
  match m with
  | MConfirm => Confirm
  | MRelease => Release
  | MFulfill => Fulfill
  | MExpire => Expire
  end.

(** The terminal statuses of the specification. *)
Definition terminal (st : ReservationStatus) : Prop :=
  st = ReservationStatusReleased \/ st = ReservationStatusExpired
  \/ st = ReservationStatusFulfilled.

End Resv.

(** ** The outbox publisher's work queue ([outbox_publisher.go]) *)

Module Outbox.

Record OutboxEntry : Type := mkOutboxEntry {
  ID : string;
  AggregateType : string;
  AggregateID : string;
  EventType : string;
  Payload : list Byte.byte;
  CorrelationID : string;
  CreatedAt : Time;
  PublishedAt : option Time;
  RetryCount : Z;
  LastError : option string
}.

Record OutboxConfig : Type := mkOutboxConfig {
  PollInterval : Z;
  BatchSize : Z;
  MaxRetries : Z;
  RetentionPeriod : Z
}.

Definition DefaultOutboxConfig : OutboxConfig :=
  mkOutboxConfig (100 * 1000000) 100 5 (7 * 24 * 3600 * 1000000000).

(** What the query reads: the rows of table [outbox] in storage order, and
    the ids of the rows a peer transaction holds locked. *)
Record Database : Type := mkDatabase {
  outbox : list OutboxEntry;
  locked : string -> bool
}.

Inductive fetch_error : Type := QueryFailed.

(** [WHERE published_at IS NULL AND retry_count < $1] *)
Definition where_clause (maxRetries : Z) (e : OutboxEntry) : bool :=
  match PublishedAt e with
  | None => true
  | Some _ => false
  end && (RetryCount e <? maxRetries).

(** [ORDER BY created_at ASC], rows of equal [created_at] kept in the order
    they were read. *)
Fixpoint insert_by_created_at (e : OutboxEntry) (l : list OutboxEntry)
    : list OutboxEntry :=
  match l with
  | [] => [e]
  | x :: l' =>
      if CreatedAt e <=? CreatedAt x then e :: l
      else x :: insert_by_created_at e l'
  end.

Definition order_by_created_at (l : list OutboxEntry) : list OutboxEntry :=
  fold_right insert_by_created_at [] l.

(** [FOR UPDATE SKIP LOCKED] *)
Definition skip_locked (db : Database) (e : OutboxEntry) : bool :=
  negb (locked db (ID e)).

(** [fetchPendingEntries]: the query with [$1 = p.config.MaxRetries] and
    [$2 = limit], on a database that answers and rows that scan; the database
    refuses a negative [LIMIT]. *)
Definition fetchPendingEntries (db : Database) (config : OutboxConfig) (limit : Z)
    : list OutboxEntry * option fetch_error :=
  if limit <? 0 then ([], Some QueryFailed)
  else
    let selected :=
      filter (fun e => where_clause (MaxRetries config) e && skip_locked db e)
        (outbox db) in
    (firstn (Z.to_nat limit) (order_by_created_at selected), None).

(** The order of [ORDER BY created_at ASC]. *)
Definition created_at_le (a b : OutboxEntry) : Prop := CreatedAt a <= CreatedAt b.

End Outbox.

(** ** Sample data *)

Module Samples.

Definition clock0 : Clock := fun n => Z.of_nat n + 1700000000.

(** A stock item with 10 on hand, 3 of them reserved. *)
Definition item0 : Stock.StockItem :=
  Stock.mkStockItem "stock-1" "product-1" "warehouse-1" 10 3 2 20
    1700000000 1700000000.

(** The item [NewStockItem] creates at the first reading of [clock0], and the
    same item after [Replenish(MaxInt)] and [Replenish(1)]. *)
Definition fresh : Stock.StockItem :=
  Stock.mkStockItem "stock-1" "product-1" "warehouse-1" 0 0 2 20
    1700000000 1700000000.

Definition overflowed : Stock.StockItem :=
  Stock.set_QuantityOnHand GoInt.min_int fresh.

(** A pending reservation that expires 900 s after [clock0] starts, and one
    that expired before. *)
Definition resv0 : Resv.Reservation :=
  Resv.mkReservation "reservation-1" "order-1"
    [Resv.mkReservationItem "stock-1" "product-1" "warehouse-1" 3]
    Resv.ReservationStatusPending 1700000900 1700000000 1700000000 None None.

Definition resv_late : Resv.Reservation :=
  Resv.mkReservation "reservation-2" "order-2"
    [Resv.mkReservationItem "stock-1" "product-1" "warehouse-1" 1]
    Resv.ReservationStatusPending 1699999999 1699999000 1699999000 None None.

(** Outbox rows: two pending ones stored out of order, a published one, a
    quarantined one and one a peer holds locked. *)
Definition row (id : string) (created : Time) (published : option Time)
    (retries : Z) : Outbox.OutboxEntry :=
  Outbox.mkOutboxEntry id "Reservation" "reservation-1"
    "inventory.stock.reserved" [] "corr-1" created published retries None.

Definition db0 : Outbox.Database :=
  Outbox.mkDatabase
    [ row "e1" 30 None 0;
      row "e2" 10 None 5;
      row "e3" 20 (Some 25) 0;
      row "e4" 5 None 1;
      row "e5" 7 None 0 ]
    (fun id => String.eqb id "e5").

End Samples.

(** ** Sequences of calls on one reservation *)

Module ResvRuns.
Import Resv.

(** The mutators called one after the other on the same reservation, the
    caller going on whatever error a call returns. *)
Fixpoint run (ms : list Mutator) (r : Reservation) : M Reservation :=
  match ms with
  | [] => ret r
  | m :: ms' => res <- call m r ;; run ms' (fst res)
  end.

(** The values a reservation takes: built by [NewReservation], then passed
    through calls of the mutators, failed ones included. *)
Inductive lifecycle : Reservation -> Prop :=
| lifecycle_new id orderID items expiresAt c r c' :
    NewReservation id orderID items expiresAt c = ((Some r, None), c') ->
    lifecycle r
| lifecycle_call m r c r' e c' :
    lifecycle r ->
    call m r c = ((r', e), c') ->
    lifecycle r'.

(** The mathematical sum of the item quantities. *)
Definition sum_quantities (items : list ReservationItem) : Z :=
  fold_right (fun item acc => Quantity item + acc) 0 items.

Definition known_status (st : ReservationStatus) : Prop :=
  st = ReservationStatusPending \/ st = ReservationStatusConfirmed \/
  st = ReservationStatusReleased \/ st = ReservationStatusFulfilled \/
  st = ReservationStatusExpired.

End ResvRuns.

(** ** Stock movements ([stock_movement.go]) *)

Module Movement.

Definition MovementType : Type := string.

Definition MovementTypeReplenishment : MovementType := "REPLENISHMENT".
Definition MovementTypeReservation : MovementType := "RESERVATION".
Definition MovementTypeRelease : MovementType := "RELEASE".
Definition MovementTypeFulfillment : MovementType := "FULFILLMENT".
Definition MovementTypeAdjustment : MovementType := "ADJUSTMENT".
Definition MovementTypeTransfer : MovementType := "TRANSFER".

Record StockMovement : Type := mkStockMovement {
  ID : string;
  StockItemID : string;
  Type_ : MovementType;
  Quantity : Z;
  ReferenceID : string;
  ReferenceType : string;
  PreviousOnHand : Z;
  NewOnHand : Z;
  PreviousReserved : Z;
  NewReserved : Z;
  Reason : string;
  CreatedBy : string;
  CreatedAt : Time
}.

Inductive error : Type :=
| ErrMovementIDRequired
| ErrMovementStockItemRequired
| ErrMovementTypeInvalid
| ErrMovementQuantityZero.

Definition isValidMovementType (mt : MovementType) : bool :=
  if existsb (String.eqb mt)
       [MovementTypeReplenishment; MovementTypeReservation; MovementTypeRelease;
        MovementTypeFulfillment; MovementTypeAdjustment; MovementTypeTransfer]
  then true
  else false.

Definition NewStockMovement (id stockItemID : string) (movementType : MovementType)
    (quantity : Z) (referenceID referenceType : string)
    (previousOnHand newOnHand previousReserved newReserved : Z)
    (reason createdBy : string) : M (option StockMovement * option error) :=
  if String.eqb id "" then ret (None, Some ErrMovementIDRequired)
  else if String.eqb stockItemID ""
       then ret (None, Some ErrMovementStockItemRequired)
  else if negb (isValidMovementType movementType)
       then ret (None, Some ErrMovementTypeInvalid)
  else if quantity =? 0 then ret (None, Some ErrMovementQuantityZero)
  else
    now <- time_Now ;;
    ret (Some (mkStockMovement id stockItemID movementType quantity
                 referenceID referenceType previousOnHand newOnHand
                 previousReserved newReserved reason createdBy now), None).

End Movement.

(** ** Products ([product.go]) *)

Module Prod.

Record ProductVariant : Type := mkProductVariant {
  Size : string;
  Color : string
}.

Record Product : Type := mkProduct {
  ID : string;
  SKU : string;
  Name : string;
  Description : string;
  Variant : ProductVariant;
  Category : string;
  MinStock : Z;
  IsActive : bool;
  CreatedAt : Time;
  UpdatedAt : Time;
  DeletedAt : option Time
}.

Inductive error : Type :=
| ErrProductIDRequired
| ErrProductSKURequired
| ErrProductNameRequired
| ErrMinStockNegative
| ErrProductDeleted.

Definition NewProduct (id sku name description category : string)
    (variant : ProductVariant) (minStock : Z)
    : M (option Product * option error) :=
  if String.eqb id "" then ret (None, Some ErrProductIDRequired)
  else if String.eqb sku "" then ret (None, Some ErrProductSKURequired)
  else if String.eqb name "" then ret (None, Some ErrProductNameRequired)
  else if minStock <? 0 then ret (None, Some ErrMinStockNegative)
  else
    now <- time_Now ;;
    ret (Some (mkProduct id sku name description variant category minStock
                 true now now None), None).

Definition Update (name description category : string)
    (variant : ProductVariant) (minStock : Z) (p : Product)
    : M (Product * option error) :=
  match DeletedAt p with
  | Some _ => ret (p, Some ErrProductDeleted)
  | None =>
      if String.eqb name "" then ret (p, Some ErrProductNameRequired)
      else if minStock <? 0 then ret (p, Some ErrMinStockNegative)
      else
        now <- time_Now ;;
        ret (mkProduct (ID p) (SKU p) name description variant category
               minStock (IsActive p) (CreatedAt p) now (DeletedAt p), None)
  end.

Definition SoftDelete (p : Product) : M (Product * option error) :=
  match DeletedAt p with
  | Some _ => ret (p, Some ErrProductDeleted)
  | None =>
      now <- time_Now ;;
      ret (mkProduct (ID p) (SKU p) (Name p) (Description p) (Variant p)
             (Category p) (MinStock p) false (CreatedAt p) now (Some now),
           None)
  end.

Definition IsDeleted (p : Product) : bool :=
  match DeletedAt p with
  | Some _ => true
  | None => false
  end.

(** A call of one of the two mutators, with its arguments. *)
Inductive Call : Type :=
| CallUpdate (name description category : string) (variant : ProductVariant)
    (minStock : Z)
| CallSoftDelete.

Definition call (k : Call) : Product -> M (Product * option error) :=
  match k with
  | CallUpdate name description category variant minStock =>
      Update name description category variant minStock
  | CallSoftDelete => SoftDelete
  end.

(** The values a product takes: built by [NewProduct], then passed through
    calls of its mutators, failed ones included. *)
Inductive lifecycle : Product -> Prop :=
| lifecycle_new id sku name description category variant minStock c p c' :
    NewProduct id sku name description category variant minStock c
      = ((Some p, None), c') ->
    lifecycle p
| lifecycle_call k p c p' e c' :
    lifecycle p ->
    call k p c = ((p', e), c') ->
    lifecycle p'.

End Prod.

(** ** Low-stock alerts ([low_stock_alert.go]) *)

Module Alert.

Definition AlertStatus : Type := string.

Definition AlertStatusActive : AlertStatus := "ACTIVE".
Definition AlertStatusAcknowledged : AlertStatus := "ACKNOWLEDGED".
Definition AlertStatusResolved : AlertStatus := "RESOLVED".

Record LowStockAlert : Type := mkLowStockAlert {
  ID : string;
  StockItemID : string;
  ProductID : string;
  WarehouseID : string;
  CurrentQuantity : Z;
  ReorderPoint : Z;
  Status : AlertStatus;
  AcknowledgedBy : option string;
  AcknowledgedAt : option Time;
  ResolvedAt : option Time;
  CreatedAt : Time;
  UpdatedAt : Time
}.

Inductive error : Type :=
| ErrAlertIDRequired
| ErrAlertStockItemRequired
| ErrAlertProductRequired
| ErrAlertWarehouseRequired
| ErrAlertAlreadyResolved.

Definition NewLowStockAlert (id stockItemID productID warehouseID : string)
    (currentQuantity reorderPoint : Z)
    : M (option LowStockAlert * option error) :=
  if String.eqb id "" then ret (None, Some ErrAlertIDRequired)
  else if String.eqb stockItemID "" then ret (None, Some ErrAlertStockItemRequired)
  else if String.eqb productID "" then ret (None, Some ErrAlertProductRequired)
  else if String.eqb warehouseID "" then ret (None, Some ErrAlertWarehouseRequired)
  else
    now <- time_Now ;;
    ret (Some (mkLowStockAlert id stockItemID productID warehouseID
                 currentQuantity reorderPoint AlertStatusActive
                 None None None now now), None).

Definition Acknowledge (userID : string) (a : LowStockAlert)
    : M (LowStockAlert * option error) :=
  if String.eqb (Status a) AlertStatusResolved
  then ret (a, Some ErrAlertAlreadyResolved)
  else
    now <- time_Now ;;
    ret (mkLowStockAlert (ID a) (StockItemID a) (ProductID a) (WarehouseID a)
           (CurrentQuantity a) (ReorderPoint a) AlertStatusAcknowledged
           (Some userID) (Some now) (ResolvedAt a) (CreatedAt a) now, None).

Definition Resolve (a : LowStockAlert) : M (LowStockAlert * option error) :=
  if String.eqb (Status a) AlertStatusResolved
  then ret (a, Some ErrAlertAlreadyResolved)
  else
    now <- time_Now ;;
    ret (mkLowStockAlert (ID a) (StockItemID a) (ProductID a) (WarehouseID a)
           (CurrentQuantity a) (ReorderPoint a) AlertStatusResolved
           (AcknowledgedBy a) (AcknowledgedAt a) (Some now) (CreatedAt a) now,
         None).

Inductive Call : Type :=
| CallAcknowledge (userID : string)
| CallResolve.

Definition call (k : Call) : LowStockAlert -> M (LowStockAlert * option error) :=
  match k with
  | CallAcknowledge userID => Acknowledge userID
  | CallResolve => Resolve
  end.

Inductive lifecycle : LowStockAlert -> Prop :=
| lifecycle_new id stockItemID productID warehouseID currentQuantity
    reorderPoint c a c' :
    NewLowStockAlert id stockItemID productID warehouseID currentQuantity
      reorderPoint c = ((Some a, None), c') ->
    lifecycle a
| lifecycle_call k a c a' e c' :
    lifecycle a ->
    call k a c = ((a', e), c') ->
    lifecycle a'.

End Alert.

(** ** Warehouses ([warehouse.go]) *)

Module Wh.

Record WarehouseAddress : Type := mkWarehouseAddress {
  Street : string;
  City : string;
  State : string;
  Country : string;
  PostalCode : string
}.

Record Warehouse : Type := mkWarehouse {
  ID : string;
  Code : string;
  Name : string;
  Address : WarehouseAddress;
  IsActive : bool;
  CreatedAt : Time;
  UpdatedAt : Time;
  DeletedAt : option Time
}.

Inductive error : Type :=
| ErrWarehouseIDRequired
| ErrWarehouseCodeRequired
| ErrWarehouseNameRequired
| ErrWarehouseDeleted.

Definition NewWarehouse (id code name : string) (address : WarehouseAddress)
    : M (option Warehouse * option error) :=
  if String.eqb id "" then ret (None, Some ErrWarehouseIDRequired)
  else if String.eqb code "" then ret (None, Some ErrWarehouseCodeRequired)
  else if String.eqb name "" then ret (None, Some ErrWarehouseNameRequired)
  else
    now <- time_Now ;;
    ret (Some (mkWarehouse id code name address true now now None), None).

Definition Update (name : string) (address : WarehouseAddress) (w : Warehouse)
    : M (Warehouse * option error) :=
  match DeletedAt w with
  | Some _ => ret (w, Some ErrWarehouseDeleted)
  | None =>
      if String.eqb name "" then ret (w, Some ErrWarehouseNameRequired)
      else
        now <- time_Now ;;
        ret (mkWarehouse (ID w) (Code w) name address (IsActive w)
               (CreatedAt w) now (DeletedAt w), None)
  end.

Definition SoftDelete (w : Warehouse) : M (Warehouse * option error) :=
  match DeletedAt w with
  | Some _ => ret (w, Some ErrWarehouseDeleted)
  | None =>
      now <- time_Now ;;
      ret (mkWarehouse (ID w) (Code w) (Name w) (Address w) false
             (CreatedAt w) now (Some now), None)
  end.

Definition IsDeleted (w : Warehouse) : bool :=
  match DeletedAt w with
  | Some _ => true
  | None => false
  end.

Inductive Call : Type :=
| CallUpdate (name : string) (address : WarehouseAddress)
| CallSoftDelete.

Definition call (k : Call) : Warehouse -> M (Warehouse * option error) :=
  match k with
  | CallUpdate name address => Update name address
  | CallSoftDelete => SoftDelete
  end.

Inductive lifecycle : Warehouse -> Prop :=
| lifecycle_new id code name address c w c' :
    NewWarehouse id code name address c = ((Some w, None), c') ->
    lifecycle w
| lifecycle_call k w c w' e c' :
    lifecycle w ->
    call k w c = ((w', e), c') ->
    lifecycle w'.

End Wh.

(** ** The Kafka producer configuration and the retry backoff
       ([config.go], [outbox_publisher.go]) *)

Module Kafka.

(** [time.Duration] is an [int64] count of nanoseconds. *)
Definition Duration : Type := Z.
Definition Millisecond : Duration := 1000000.
Definition Second : Duration := 1000000000.

Record Config : Type := mkConfig {
  Brokers : list string;
  ClientID : string;
  Acks : string;
  MaxRetries : Z;
  RetryBackoff : Duration;
  MaxBackoff : Duration;
  BatchSize : Z;
  LingerMs : Z;
  CompressionType : string;
  IdempotentEnabled : bool
}.

Definition DefaultConfig : Config :=
  mkConfig ["localhost:9092"] "inventory-service" "all" 5
    (100 * Millisecond) (10 * Second) 16384 5 "snappy" true.

(** [uint(retryCount)]: the conversion of an [int] to the 64-bit [uint]. *)
Definition to_uint (n : Z) : Z := n mod GoInt.modulus.

(** [time.Duration(1 << uint(retryCount))]: the constant takes the type
    [int64]; a shift by 64 or more gives 0, a shift by 63 the least [int64]. *)
Definition shift_one (retryCount : Z) : Duration :=
  let count := to_uint retryCount in
  if count <? GoInt.bits then GoInt.wrap (2 ^ count) else 0.

Definition calculateBackoff (kafkaConfig : Config) (retryCount : Z) : Duration :=
  let backoff := GoInt.wrap (RetryBackoff kafkaConfig * shift_one retryCount) in
  if MaxBackoff kafkaConfig <? backoff then MaxBackoff kafkaConfig
  else backoff.

(** [DefaultTopicMapper.GetTopic]: [fmt.Sprintf("%s.%s", prefix, eventType)] *)
Definition GetTopic (prefix eventType : string) : string :=
  (prefix ++ "." ++ eventType)%string.

End Kafka.

(** ** Marking outbox rows published ([outbox_publisher.go]) *)

Module OutboxOps.
Import Outbox.

Definition set_PublishedAt (t : option Time) (e : OutboxEntry) : OutboxEntry :=
  mkOutboxEntry (ID e) (AggregateType e) (AggregateID e) (EventType e)
    (Payload e) (CorrelationID e) (CreatedAt e) t (RetryCount e) (LastError e).

(** [markAsPublished]: [UPDATE outbox SET published_at = NOW() WHERE id = $1],
    [now] being the database's [NOW()]. *)
Definition markAsPublished (db : Database) (entryID : string) (now : Time)
    : Database :=
  mkDatabase
    (map (fun e => if String.eqb (ID e) entryID
                   then set_PublishedAt (Some now) e else e) (outbox db))
    (locked db).

(** [markAsPublished] for each entry of a batch in turn, as
    [ProcessPendingEvents] does for the entries it could publish; [nows]
    gives the database time of each update. *)
Fixpoint markBatch (db : Database) (batch : list OutboxEntry) (nows : nat -> Time)
    : Database :=
  match batch with
  | [] => db
  | e :: rest =>
      markBatch (markAsPublished db (ID e) (nows 0%nat)) rest
        (fun n => nows (S n))
  end.

(** The rows the query of [fetchPendingEntries] selects before [ORDER BY]
    and [LIMIT]. *)
Definition eligible (db : Database) (config : OutboxConfig) : list OutboxEntry :=
  filter (fun e => where_clause (MaxRetries config) e && skip_locked db e)
    (outbox db).

End OutboxOps.

(** ** Role-based access control ([rbac_middleware.go]) *)

Module Rbac.

Definition RoleAdmin : string := "admin".
Definition RoleInventoryManager : string := "inventory_manager".
Definition RoleWarehouseStaff : string := "warehouse_staff".
Definition RoleOrderService : string := "order_service".
Definition RoleReadOnly : string := "read_only".

Definition Permission : Type := string.

Definition PermissionProductCreate : Permission := "product:create".
Definition PermissionProductRead : Permission := "product:read".
Definition PermissionProductUpdate : Permission := "product:update".
Definition PermissionProductDelete : Permission := "product:delete".
Definition PermissionWarehouseCreate : Permission := "warehouse:create".
Definition PermissionWarehouseRead : Permission := "warehouse:read".
Definition PermissionWarehouseUpdate : Permission := "warehouse:update".
Definition PermissionWarehouseDelete : Permission := "warehouse:delete".
Definition PermissionStockItemCreate : Permission := "stock_item:create".
Definition PermissionStockItemRead : Permission := "stock_item:read".
Definition PermissionStockReplenish : Permission := "stock:replenish".
Definition PermissionReservationCreate : Permission := "reservation:create".
Definition PermissionReservationRead : Permission := "reservation:read".
Definition PermissionReservationFulfill : Permission := "reservation:fulfill".
Definition PermissionReservationRelease : Permission := "reservation:release".
Definition PermissionMovementRead : Permission := "movement:read".
Definition PermissionAlertRead : Permission := "alert:read".

(** The map literal [RolePermissions]; its keys are distinct. *)
Definition RolePermissions : list (string * list Permission) :=
  [ (RoleAdmin,
     [PermissionProductCreate; PermissionProductRead; PermissionProductUpdate;
      PermissionProductDelete;
      PermissionWarehouseCreate; PermissionWarehouseRead;
      PermissionWarehouseUpdate; PermissionWarehouseDelete;
      PermissionStockItemCreate; PermissionStockItemRead;
      PermissionStockReplenish;
      PermissionReservationCreate; PermissionReservationRead;
      PermissionReservationFulfill; PermissionReservationRelease;
      PermissionMovementRead; PermissionAlertRead]);
    (RoleInventoryManager,
     [PermissionProductCreate; PermissionProductRead; PermissionProductUpdate;
      PermissionWarehouseRead;
      PermissionStockItemCreate; PermissionStockItemRead;
      PermissionStockReplenish;
      PermissionReservationRead; PermissionReservationFulfill;
      PermissionReservationRelease;
      PermissionMovementRead; PermissionAlertRead]);
    (RoleWarehouseStaff,
     [PermissionProductRead;
      PermissionWarehouseRead;
      PermissionStockItemRead; PermissionStockReplenish;
      PermissionReservationRead; PermissionReservationFulfill;
      PermissionMovementRead; PermissionAlertRead]);
    (RoleOrderService,
     [PermissionProductRead;
      PermissionStockItemRead;
      PermissionReservationCreate; PermissionReservationRead;
      PermissionReservationFulfill; PermissionReservationRelease]);
    (RoleReadOnly,
     [PermissionProductRead;
      PermissionWarehouseRead;
      PermissionStockItemRead;
      PermissionReservationRead;
      PermissionMovementRead;
      PermissionAlertRead]) ].

Record EndpointPermission : Type := mkEndpointPermission {
  Method : string;
  PathPrefix : string;
  Required : Permission
}.

Definition MethodGet : string := "GET".
Definition MethodPost : string := "POST".
Definition MethodPut : string := "PUT".
Definition MethodDelete : string := "DELETE".

Definition EndpointPermissions : list EndpointPermission :=
  [ mkEndpointPermission MethodPost "/api/v1/products" PermissionProductCreate;
    mkEndpointPermission MethodGet "/api/v1/products" PermissionProductRead;
    mkEndpointPermission MethodPut "/api/v1/products/" PermissionProductUpdate;
    mkEndpointPermission MethodDelete "/api/v1/products/" PermissionProductDelete;
    mkEndpointPermission MethodPost "/api/v1/warehouses" PermissionWarehouseCreate;
    mkEndpointPermission MethodGet "/api/v1/warehouses" PermissionWarehouseRead;
    mkEndpointPermission MethodPut "/api/v1/warehouses/" PermissionWarehouseUpdate;
    mkEndpointPermission MethodDelete "/api/v1/warehouses/"
      PermissionWarehouseDelete;
    mkEndpointPermission MethodPost "/api/v1/stock-items" PermissionStockItemCreate;
    mkEndpointPermission MethodGet "/api/v1/stock-items" PermissionStockItemRead;
    mkEndpointPermission MethodPost "/api/v1/reservations"
      PermissionReservationCreate;
    mkEndpointPermission MethodGet "/api/v1/reservations" PermissionReservationRead;
    mkEndpointPermission MethodPost "/api/v1/reservations/"
      PermissionReservationFulfill;
    mkEndpointPermission MethodPost "/api/v1/stock-movements/replenish"
      PermissionStockReplenish;
    mkEndpointPermission MethodGet "/api/v1/stock-movements" PermissionMovementRead;
    mkEndpointPermission MethodGet "/api/v1/alerts" PermissionAlertRead ].

(** [m.rolePermissions[role]], as [NewRBACMiddleware] builds it: the
    permissions listed for the role, if the role is a key of the map. *)
Fixpoint lookup (role : string) (table : list (string * list Permission))
    : option (list Permission) :=
  match table with
  | [] => None
  | (key, perms) :: rest =>
      if String.eqb key role then Some perms else lookup role rest
  end.

(** [perms[permission]] on the set built from the list *)
Definition granted (perms : list Permission) (permission : Permission) : bool :=
  existsb (String.eqb permission) perms.

Fixpoint hasPermission (roles : list string) (permission : Permission) : bool :=
  match roles with
  | [] => false
  | role :: rest =>
      match lookup role RolePermissions with
      | Some perms =>
          if granted perms permission then true
          else hasPermission rest permission
      | None => hasPermission rest permission
      end
  end.

(** [strings.HasPrefix(s, prefix)] *)
Definition HasPrefix (s prefix : string) : bool := String.prefix prefix s.

(** [strings.Contains(s, substr)] *)
Fixpoint Contains (s substr : string) : bool :=
  if String.prefix substr s then true
  else
    match s with
    | EmptyString => false
    | String _ s' => Contains s' substr
    end.

Fixpoint firstEndpoint (method path : string) (eps : list EndpointPermission)
    : Permission :=
  match eps with
  | [] => ""
  | ep :: rest =>
      if String.eqb (Method ep) method && HasPrefix path (PathPrefix ep)
      then Required ep
      else firstEndpoint method path rest
  end.

Definition getRequiredPermission (method path : string) : Permission :=
  if Contains path "/release" then PermissionReservationRelease
  else if Contains path "/fulfill" then PermissionReservationFulfill
  else if Contains path "/stock" && String.eqb method MethodGet
       then PermissionStockItemRead
  else if Contains path "/movements" then PermissionMovementRead
  else firstEndpoint method path EndpointPermissions.

(** What [Middleware] does with a request: hand it to the next handler, or
    answer 403 with a message. *)
Inductive outcome : Type :=
| Next
| Forbidden (message : string).

Definition Middleware (roles : list string) (method path : string) : outcome :=
  if (List.length roles =? 0)%nat then Forbidden "no roles assigned"
  else
    let requiredPermission := getRequiredPermission method path in
    if String.eqb requiredPermission "" then Next
    else if negb (hasPermission roles requiredPermission)
         then Forbidden "insufficient permissions for this operation"
    else Next.

End Rbac.

(** ** More sample data *)

Module MoreSamples.

Definition product0 : Prod.Product :=
  Prod.mkProduct "p1" "sku-1" "Shirt" "" (Prod.mkProductVariant "M" "blue")
    "apparel" 5 true 1700000000 1700000000 None.

Definition warehouse0 : Wh.Warehouse :=
  Wh.mkWarehouse "w1" "LDS" "Depot" (Wh.mkWarehouseAddress "" "" "" "" "")
    true 1700000000 1700000000 None.

Definition alert0 : Alert.LowStockAlert :=
  Alert.mkLowStockAlert "alert-1" "stock-1" "product-1" "warehouse-1" 2 3
    Alert.AlertStatusActive None None None 1700000000 1700000000.

End MoreSamples.

(** ** Stock items past an overflow *)

Module Wrapped.
Import Stock.

(** [Samples.fresh] after [Replenish(MaxInt)] and [Reserve(MaxInt)]. *)
Definition full : StockItem :=
  set_QuantityReserved GoInt.max_int
    (set_QuantityOnHand GoInt.max_int Samples.fresh).

(** [full] after a second [Replenish(MaxInt)]: on-hand -2, reserved MaxInt. *)
Definition wrapped : StockItem := set_QuantityOnHand (-2) full.

(** [wrapped] after [Reserve(1)]: on-hand -2, reserved MinInt. *)
Definition negative : StockItem := set_QuantityReserved GoInt.min_int wrapped.

End Wrapped.

(** * Properties *)

(** ** Arithmetic of [int] *)

Module GoIntFacts.
Import GoInt.

Lemma wrap_in_range z : in_range (wrap z).
Proof.
  unfold in_range, wrap, min_int, max_int, modulus, bits.
  pose proof (Z.mod_pos_bound (z - - 2 ^ (64 - 1)) (2 ^ 64) ltac:(lia)).
  change (2 ^ (64 - 1)) with 9223372036854775808 in *.
  change (2 ^ 64) with 18446744073709551616 in *.
  lia.
Qed.

Lemma wrap_small z : in_range z -> wrap z = z.
Proof.
  unfold in_range, wrap, min_int, max_int, modulus, bits.
  change (2 ^ (64 - 1)) with 9223372036854775808.
  change (2 ^ 64) with 18446744073709551616.
  intros H. rewrite Z.mod_small; lia.
Qed.

Lemma add_small a b : in_range (a + b) -> add a b = a + b.
Proof. apply wrap_small. Qed.

Lemma sub_small a b : in_range (a - b) -> sub a b = a - b.
Proof. apply wrap_small. Qed.

Lemma max_int_value : max_int = 9223372036854775807.
Proof. reflexivity. Qed.

Lemma min_int_value : min_int = -9223372036854775808.
Proof. reflexivity. Qed.

End GoIntFacts.

(** ** The stock ledger *)

Module StockFacts.
Import Stock Samples Wrapped.

Ltac run := cbv [Reserve ReleaseReservation Fulfill Replenish call
                 bind ret time_Now].

Ltac ltb_cases :=
  repeat match goal with
    | |- context [?a <? ?b] => destruct (Z.ltb_spec a b); try lia
    | H : context [?a <? ?b] |- _ => destruct (Z.ltb_spec a b); try lia
    end.

Ltac closed := vm_compute; repeat split; intros; (discriminate || reflexivity).

Ltac int_bounds :=
  unfold Stock.invariant, Stock.well_typed, GoInt.in_range in *;
  change GoInt.max_int with 9223372036854775807 in *;
  change GoInt.min_int with (-9223372036854775808) in *;
  cbn [QuantityOnHand QuantityReserved
       set_QuantityOnHand set_QuantityReserved set_UpdatedAt] in *.

Lemma available_exact s :
  GoInt.in_range (QuantityOnHand s - QuantityReserved s) ->
  AvailableQuantity s = QuantityOnHand s - QuantityReserved s.
Proof. apply GoIntFacts.sub_small. Qed.

(** Under the ledger invariant the subtraction in [AvailableQuantity] cannot
    overflow. *)
Lemma invariant_available s :
  invariant s -> well_typed s ->
  GoInt.in_range (QuantityOnHand s - QuantityReserved s).
Proof. intros Hi Hw. int_bounds. lia. Qed.

Lemma invariant_well_typed s :
  invariant s -> QuantityOnHand s <= GoInt.max_int -> well_typed s.
Proof.
  intros Hi Hm. split; int_bounds; lia.
Qed.

(** A successful [Reserve], in full. *)
Lemma Reserve_ok s q c :
  well_typed s -> GoInt.in_range (QuantityOnHand s - QuantityReserved s) ->
  0 <= q -> q <= QuantityOnHand s - QuantityReserved s ->
  Reserve q s c =
    ((set_UpdatedAt (c 0%nat)
        (set_QuantityReserved (QuantityReserved s + q) s), None),
     fun n => c (S n)).
Proof.
  intros Hw Ha Hq Hle.
  pose proof (available_exact s Ha) as Hav.
  run. rewrite Hav.
  rewrite GoIntFacts.add_small by (int_bounds; lia).
  ltb_cases. reflexivity.
Qed.

Lemma Reserve_short s q c :
  GoInt.in_range (QuantityOnHand s - QuantityReserved s) ->
  0 <= q -> QuantityOnHand s - QuantityReserved s < q ->
  Reserve q s c = ((s, Some ErrInsufficientStock), c).
Proof.
  intros Ha Hq Hlt.
  pose proof (available_exact s Ha) as Hav.
  run. rewrite Hav. ltb_cases. reflexivity.
Qed.

Lemma ReleaseReservation_ok s q c :
  well_typed s -> 0 <= q -> q <= QuantityReserved s ->
  ReleaseReservation q s c =
    ((set_UpdatedAt (c 0%nat)
        (set_QuantityReserved (QuantityReserved s - q) s), None),
     fun n => c (S n)).
Proof.
  intros Hw Hq Hr. run.
  rewrite GoIntFacts.sub_small by (int_bounds; lia).
  ltb_cases. reflexivity.
Qed.

Lemma Fulfill_ok s q c :
  well_typed s -> 0 <= q ->
  q <= QuantityReserved s -> q <= QuantityOnHand s ->
  Fulfill q s c =
    ((set_UpdatedAt (c 0%nat)
        (set_QuantityOnHand (QuantityOnHand s - q)
           (set_QuantityReserved (QuantityReserved s - q) s)), None),
     fun n => c (S n)).
Proof.
  intros Hw Hq Hr Ho. run. cbn [QuantityOnHand set_QuantityReserved].
  rewrite !GoIntFacts.sub_small by (int_bounds; lia).
  ltb_cases. reflexivity.
Qed.

Lemma Replenish_ok s q c :
  well_typed s -> 0 <= q -> QuantityOnHand s + q <= GoInt.max_int ->
  Replenish q s c =
    ((set_UpdatedAt (c 0%nat)
        (set_QuantityOnHand (QuantityOnHand s + q) s), None),
     fun n => c (S n)).
Proof.
  intros Hw Hq Hm. run.
  rewrite GoIntFacts.add_small by (int_bounds; lia).
  ltb_cases. reflexivity.
Qed.

Lemma negative_rejected m s q c :
  q < 0 -> call m q s c = ((s, Some ErrQuantityNegative), c).
Proof. intros Hq. destruct m; run; ltb_cases; reflexivity. Qed.

Lemma ReleaseReservation_short s q c :
  0 <= q -> QuantityReserved s < q ->
  ReleaseReservation q s c = ((s, Some ErrInsufficientReserved), c).
Proof. intros Hq Hr. run. ltb_cases. reflexivity. Qed.

Lemma Fulfill_short_reserved s q c :
  0 <= q -> QuantityReserved s < q ->
  Fulfill q s c = ((s, Some ErrInsufficientReserved), c).
Proof. intros Hq Hr. run. ltb_cases. reflexivity. Qed.

Lemma Fulfill_short_on_hand s q c :
  0 <= q -> q <= QuantityReserved s -> QuantityOnHand s < q ->
  Fulfill q s c = ((s, Some ErrInsufficientStock), c).
Proof. intros Hq Hr Ho. run. ltb_cases. reflexivity. Qed.

(** What a successful call tells about its arguments. *)
Lemma Reserve_inversion q s c s1 c1 :
  Reserve q s c = ((s1, None), c1) ->
  0 <= q /\ q <= AvailableQuantity s /\
  s1 = set_UpdatedAt (c 0%nat)
         (set_QuantityReserved (GoInt.add (QuantityReserved s) q) s).
Proof.
  run. destruct (Z.ltb_spec q 0); [discriminate|].
  destruct (Z.ltb_spec (AvailableQuantity s) q); [discriminate|].
  intros Hrun. injection Hrun as <- _. auto.
Qed.

Lemma Release_inversion q s c s1 c1 :
  ReleaseReservation q s c = ((s1, None), c1) ->
  0 <= q /\ q <= QuantityReserved s /\
  s1 = set_UpdatedAt (c 0%nat)
         (set_QuantityReserved (GoInt.sub (QuantityReserved s) q) s).
Proof.
  run. destruct (Z.ltb_spec q 0); [discriminate|].
  destruct (Z.ltb_spec (QuantityReserved s) q); [discriminate|].
  intros Hrun. injection Hrun as <- _. auto.
Qed.

Lemma Fulfill_inversion q s c s1 c1 :
  Fulfill q s c = ((s1, None), c1) ->
  0 <= q /\ q <= QuantityReserved s /\ q <= QuantityOnHand s /\
  s1 = set_UpdatedAt (c 0%nat)
         (set_QuantityOnHand (GoInt.sub (QuantityOnHand s) q)
            (set_QuantityReserved (GoInt.sub (QuantityReserved s) q) s)).
Proof.
  run. destruct (Z.ltb_spec q 0); [discriminate|].
  destruct (Z.ltb_spec (QuantityReserved s) q); [discriminate|].
  cbn [QuantityOnHand set_QuantityReserved].
  destruct (Z.ltb_spec (QuantityOnHand s) q); [discriminate|].
  intros Hrun. injection Hrun as <- _. auto.
Qed.

Lemma wrap_sub_wrap a b : GoInt.wrap (GoInt.wrap a - b) = GoInt.wrap (a - b).
Proof.
  unfold GoInt.wrap. f_equal.
  replace ((a - GoInt.min_int) mod GoInt.modulus + GoInt.min_int - b
           - GoInt.min_int)
    with ((a - GoInt.min_int) mod GoInt.modulus - b) by lia.
  rewrite Zminus_mod_idemp_l. f_equal. lia.
Qed.

(** C3, amended. Take a stock item with [int] counters whose available
    quantity, on-hand minus reserved, is itself an [int] (as it is for every
    item that satisfies the ledger invariant, [invariant_available]), and a
    quantity [q > 0]. [AvailableQuantity] returns that difference. If it is
    at least
    [q], [Reserve q] succeeds, adds exactly [q] to [QuantityReserved] and
    keeps [QuantityOnHand]; if it is less than [q], [Reserve q] fails with
    [ErrInsufficientStock] and changes nothing. Reserving exactly the
    available quantity succeeds when it is not negative, reserving one more
    fails. *)
Theorem Reserve_spec s q c :
  let available := QuantityOnHand s - QuantityReserved s in
  well_typed s -> GoInt.in_range available ->
  GoInt.in_range q -> 0 < q ->
  AvailableQuantity s = available /\
  (q <= available ->
   exists s',
     Reserve q s c = ((s', None), fun n => c (S n)) /\
     QuantityReserved s' = QuantityReserved s + q /\
     QuantityOnHand s' = QuantityOnHand s) /\
  (available < q -> Reserve q s c = ((s, Some ErrInsufficientStock), c)) /\
  (0 <= available ->
   exists s',
     Reserve (AvailableQuantity s) s c = ((s', None), fun n => c (S n)) /\
     QuantityReserved s' = QuantityReserved s + available /\
     QuantityOnHand s' = QuantityOnHand s) /\
  (exists e,
     Reserve (GoInt.add (AvailableQuantity s) 1) s c = ((s, Some e), c)).
Proof.
  intros available Hw Ha Hq Hpos.
  pose proof (available_exact s Ha) as Hav. fold available in Hav.
  split; [exact Hav|]. split; [|split; [|split]].
  - intros Hle. eexists. split; [apply Reserve_ok; auto; lia|].
    split; reflexivity.
  - intros Hlt. apply Reserve_short; auto; lia.
  - intros Hnn. rewrite Hav. eexists. split.
    + apply Reserve_ok; auto; subst available; lia.
    + split; reflexivity.
  - rewrite Hav.
    destruct (Z.eq_dec available GoInt.max_int) as [Hmax|Hmax].
    { exists ErrQuantityNegative. rewrite Hmax.
      apply (negative_rejected MReserve). reflexivity. }
    assert (GoInt.add available 1 = available + 1) as ->.
    { apply GoIntFacts.add_small. int_bounds. lia. }
    destruct (Z.lt_ge_cases (available + 1) 0) as [Hneg|Hnn].
    + exists ErrQuantityNegative. apply (negative_rejected MReserve), Hneg.
    + exists ErrInsufficientStock.
      apply Reserve_short; auto; subst available; lia.
Qed.

Lemma Reserve_spec_witness :
  AvailableQuantity item0 = 7 /\
  (exists s',
     Reserve 4 item0 clock0 = ((s', None), fun n => clock0 (S n)) /\
     QuantityReserved s' = 7 /\ QuantityOnHand s' = 10).
Proof.
  destruct (Reserve_spec item0 4 clock0) as (Ha & Hok & _); [closed ..|].
  split; [exact Ha|]. apply Hok. closed.
Defined.

(** C4, amended. For a stock item whose [QuantityReserved] is not negative
    and a quantity [q > 0] no larger than the available quantity, on-hand
    minus reserved, [Reserve q] followed by [ReleaseReservation q] both
    succeed and bring [QuantityOnHand] and [QuantityReserved] back to their
    values before the [Reserve]. *)
Theorem Reserve_then_Release s q c :
  0 <= QuantityReserved s -> well_typed s -> GoInt.in_range q -> 0 < q ->
  q <= QuantityOnHand s - QuantityReserved s ->
  exists s1 c1 s2 c2,
    Reserve q s c = ((s1, None), c1) /\
    ReleaseReservation q s1 c1 = ((s2, None), c2) /\
    QuantityOnHand s2 = QuantityOnHand s /\
    QuantityReserved s2 = QuantityReserved s.
Proof.
  intros Hr Hw Hq Hpos Hle.
  assert (invariant s) as Hi by (unfold invariant; lia).
  pose proof (invariant_available s Hi Hw) as Ha.
  do 4 eexists. split; [apply Reserve_ok; auto; lia|].
  split.
  - apply ReleaseReservation_ok;
      [split; cbn; int_bounds; lia | lia | cbn; int_bounds; lia].
  - cbn. split; lia.
Qed.

Lemma Reserve_then_Release_witness :
  exists s1 c1 s2 c2,
    Reserve 7 item0 clock0 = ((s1, None), c1) /\
    ReleaseReservation 7 s1 c1 = ((s2, None), c2) /\
    QuantityOnHand s2 = 10 /\ QuantityReserved s2 = 3.
Proof. apply (Reserve_then_Release item0 7 clock0); closed. Defined.

(** C5, amended. For a stock item and a quantity [q > 0]: when both counters
    are at least [q], [Fulfill q] succeeds and takes exactly [q] off
    [QuantityOnHand] and off [QuantityReserved]; when [QuantityReserved] is
    less than [q] it fails with [ErrInsufficientReserved] and changes
    nothing. Hence, whenever [Reserve q] and then [Fulfill q] both succeed,
    the on-hand quantity is lower by exactly [q] and the reserved quantity is
    back where it was; on an item that satisfies the ledger invariant a
    successful [Reserve q] is always followed by a successful [Fulfill q]. *)
Theorem Fulfill_counters s q c :
  well_typed s -> GoInt.in_range q -> 0 < q ->
  (q <= QuantityReserved s -> q <= QuantityOnHand s ->
   exists s',
     Fulfill q s c = ((s', None), fun n => c (S n)) /\
     QuantityOnHand s' = QuantityOnHand s - q /\
     QuantityReserved s' = QuantityReserved s - q) /\
  (QuantityReserved s < q ->
   Fulfill q s c = ((s, Some ErrInsufficientReserved), c)) /\
  (invariant s ->
   forall s1 c1,
     Reserve q s c = ((s1, None), c1) ->
     exists s2 c2,
       Fulfill q s1 c1 = ((s2, None), c2) /\
       QuantityOnHand s2 = QuantityOnHand s - q /\
       QuantityReserved s2 = QuantityReserved s) /\
  (forall s1 c1 s2 c2,
     Reserve q s c = ((s1, None), c1) ->
     Fulfill q s1 c1 = ((s2, None), c2) ->
     QuantityOnHand s2 = QuantityOnHand s - q /\
     QuantityReserved s2 = QuantityReserved s).
Proof.
  intros Hw Hq Hpos. split; [|split; [|split]].
  - intros Hr Ho. eexists. split; [apply Fulfill_ok; auto; lia|].
    split; reflexivity.
  - intros Hr. apply Fulfill_short_reserved; lia.
  - intros Hi s1 c1 Hres.
    pose proof (invariant_available s Hi Hw) as Ha.
    destruct (Z.lt_ge_cases (QuantityOnHand s - QuantityReserved s) q)
      as [Hlt|Hge].
    { rewrite Reserve_short in Hres by (auto; lia). discriminate. }
    rewrite Reserve_ok in Hres by (auto; lia).
    injection Hres as <- <-.
    do 2 eexists. split.
    + apply Fulfill_ok; [split; cbn; int_bounds; lia | lia | |];
        cbn; int_bounds; lia.
    + cbn. split; lia.
  - intros s1 c1 s2 c2 Hres Hful.
    apply Reserve_inversion in Hres as (_ & _ & ->).
    apply Fulfill_inversion in Hful as (_ & Hrq & Hoq & ->).
    cbn in *. split.
    + apply GoIntFacts.sub_small. int_bounds. lia.
    + unfold GoInt.sub, GoInt.add. rewrite wrap_sub_wrap.
      replace (QuantityReserved s + q - q) with (QuantityReserved s) by lia.
      apply GoIntFacts.wrap_small. destruct Hw as [_ Hr]. exact Hr.
Qed.

Lemma Fulfill_counters_witness :
  exists s',
    Fulfill 2 item0 clock0 = ((s', None), fun n => clock0 (S n)) /\
    QuantityOnHand s' = 8 /\ QuantityReserved s' = 1.
Proof.
  destruct (Fulfill_counters item0 2 clock0) as (Hok & _); [closed ..|].
  apply Hok; closed.
Defined.

(** C9, amended. Each of [Reserve], [ReleaseReservation], [Fulfill] and
    [Replenish] returns [ErrQuantityNegative] exactly when its argument is
    negative, and then changes nothing; none rejects the quantity zero for
    its sign. [Replenish] accepts zero on every stock item; all four accept
    zero exactly on the stock items that satisfy the ledger invariant, and
    the call then succeeds leaving both counters as they were. *)
Theorem quantity_sign_check m s q c :
  (snd (fst (call m q s c)) = Some ErrQuantityNegative <-> q < 0) /\
  (q < 0 -> call m q s c = ((s, Some ErrQuantityNegative), c)) /\
  (invariant s -> well_typed s ->
   exists s',
     call m 0 s c = ((s', None), fun n => c (S n)) /\
     QuantityOnHand s' = QuantityOnHand s /\
     QuantityReserved s' = QuantityReserved s) /\
  (well_typed s ->
   exists s',
     Replenish 0 s c = ((s', None), fun n => c (S n)) /\
     QuantityOnHand s' = QuantityOnHand s /\
     QuantityReserved s' = QuantityReserved s) /\
  (well_typed s ->
   (forall m', exists s' c', call m' 0 s c = ((s', None), c')) ->
   invariant s).
Proof.
  split; [|split; [|split; [|split]]].
  - split.
    + intros He. destruct (Z.lt_ge_cases q 0) as [|Hge]; [assumption|].
      exfalso. revert He. destruct m; run;
        repeat match goal with
          | |- context [?a <? ?b] => destruct (a <? b) eqn:?
          end; cbn; try discriminate; lia.
    + intros Hq. rewrite negative_rejected by assumption. reflexivity.
  - apply negative_rejected.
  - intros Hi Hw. pose proof (invariant_available s Hi Hw) as Ha.
    destruct m; cbn [call]; eexists.
    + split; [apply Reserve_ok; auto; int_bounds; lia|]. cbn. split; lia.
    + split; [apply ReleaseReservation_ok; auto; int_bounds; lia|].
      cbn. split; lia.
    + split; [apply Fulfill_ok; auto; int_bounds; lia|]. cbn. split; lia.
    + split; [apply Replenish_ok; auto; int_bounds; lia|]. cbn. split; lia.
  - intros Hw. eexists.
    split; [apply Replenish_ok; auto; int_bounds; lia|]. cbn. split; lia.
  - intros Hw Hall.
    destruct (Hall MReserve) as (s1 & c1 & Hres).
    destruct (Hall MReleaseReservation) as (s2 & c2 & Hrel).
    destruct (Hall MFulfill) as (s3 & c3 & Hful).
    cbn [call] in *.
    apply Reserve_inversion in Hres as (_ & Hav & _).
    apply Release_inversion in Hrel as (_ & Hr & _).
    apply Fulfill_inversion in Hful as (_ & _ & Ho & _).
    rewrite available_exact in Hav by (int_bounds; lia).
    unfold invariant. lia.
Qed.

Lemma quantity_sign_check_witness :
  call MFulfill (-1) item0 clock0 = ((item0, Some ErrQuantityNegative), clock0)
  /\ exists s',
       call MFulfill 0 item0 clock0 = ((s', None), fun n => clock0 (S n)) /\
       QuantityOnHand s' = 10 /\ QuantityReserved s' = 3.
Proof.
  destruct (quantity_sign_check MFulfill item0 (-1) clock0)
    as (_ & Hneg & Hz & _).
  split; [apply Hneg; closed | apply Hz; closed].
Defined.

(** The only states [NewStockItem] returns have both counters at zero. *)
Lemma NewStockItem_counters id productID warehouseID rp rq c s c' :
  NewStockItem id productID warehouseID rp rq c = ((Some s, None), c') ->
  QuantityOnHand s = 0 /\ QuantityReserved s = 0.
Proof.
  unfold NewStockItem.
  destruct (String.eqb id ""); [discriminate|].
  destruct (String.eqb productID ""); [discriminate|].
  destruct (String.eqb warehouseID ""); [discriminate|].
  destruct (rp <? 0); [discriminate|].
  destruct (rq <? 0); [discriminate|].
  cbv [bind ret time_Now]. intros H. injection H as <- _.
  split; reflexivity.
Qed.

(** One successful call keeps the invariant, provided a [Replenish] does
    not overflow. *)
Lemma call_preserves m q s c s' c' :
  invariant s -> well_typed s -> replenish_fits m q s ->
  call m q s c = ((s', None), c') ->
  invariant s' /\ well_typed s'.
Proof.
  intros Hi Hw Hfit Hcall.
  pose proof (invariant_available s Hi Hw) as Ha.
  destruct (Z.lt_ge_cases q 0) as [Hneg|Hq].
  { rewrite negative_rejected in Hcall by assumption. discriminate. }
  destruct m; cbn [call replenish_fits] in *.
  - destruct (Z.lt_ge_cases (QuantityOnHand s - QuantityReserved s) q).
    { rewrite Reserve_short in Hcall by (auto; lia). discriminate. }
    rewrite Reserve_ok in Hcall by (auto; lia).
    injection Hcall as <- _. split; [|split]; cbn; int_bounds; lia.
  - destruct (Z.lt_ge_cases (QuantityReserved s) q).
    { rewrite ReleaseReservation_short in Hcall by lia. discriminate. }
    rewrite ReleaseReservation_ok in Hcall by (auto; lia).
    injection Hcall as <- _. split; [|split]; cbn; int_bounds; lia.
  - destruct (Z.lt_ge_cases (QuantityReserved s) q).
    { rewrite Fulfill_short_reserved in Hcall by lia. discriminate. }
    destruct (Z.lt_ge_cases (QuantityOnHand s) q).
    { rewrite Fulfill_short_on_hand in Hcall by lia. discriminate. }
    rewrite Fulfill_ok in Hcall by (auto; lia).
    injection Hcall as <- _. split; [|split]; cbn; int_bounds; lia.
  - rewrite Replenish_ok in Hcall by (auto; lia).
    injection Hcall as <- _. split; [|split]; cbn; int_bounds; lia.
Qed.

Lemma reachable_fits_invariant s :
  reachable replenish_fits s -> invariant s /\ well_typed s.
Proof.
  induction 1 as [id pid wid rp rq c s c' Hnew
                 | m q s c s' c' Hreach [Hi Hw] Hq Hfit Hcall].
  - apply NewStockItem_counters in Hnew as [Ho Hr].
    unfold invariant, well_typed. rewrite Ho, Hr.
    split; [lia|]. split; int_bounds; lia.
  - eapply call_preserves; eassumption.
Qed.

Lemma reachable_fresh allowed : reachable allowed fresh.
Proof.
  apply (reachable_new allowed "stock-1" "product-1" "warehouse-1" 2 20
           clock0 fresh (fun n => clock0 (S n))).
  reflexivity.
Qed.

(** C2, as stated, fails: two replenishments whose sum exceeds the largest
    [int] leave a negative on-hand quantity below the reserved one. *)
Lemma invariant_lost_on_overflow :
  reachable any_call overflowed /\ ~ invariant overflowed.
Proof.
  split.
  - apply (reachable_call any_call MReplenish 1
             (set_QuantityOnHand GoInt.max_int fresh) clock0 overflowed
             (fun n => clock0 (S n))).
    + apply (reachable_call any_call MReplenish GoInt.max_int
               fresh clock0 _ (fun n => clock0 (S n))).
      * apply reachable_fresh.
      * closed.
      * exact I.
      * vm_compute. reflexivity.
    + closed.
    + exact I.
    + vm_compute. reflexivity.
  - unfold invariant. vm_compute. intros [_ H]. apply H. reflexivity.
Qed.

(** The states of [Wrapped] and [overflowed] are reached by successful calls
    alone. *)
Lemma reachable_overflowed : reachable any_call overflowed.
Proof.
  apply (reachable_call any_call MReplenish 1
           (set_QuantityOnHand GoInt.max_int fresh) clock0 overflowed
           (fun n => clock0 (S n))); [| closed | exact I | reflexivity].
  apply (reachable_call any_call MReplenish GoInt.max_int fresh clock0 _
           (fun n => clock0 (S n))); [| closed | exact I | reflexivity].
  apply reachable_fresh.
Qed.

Lemma reachable_wrapped : reachable any_call wrapped.
Proof.
  apply (reachable_call any_call MReplenish GoInt.max_int full clock0 wrapped
           (fun n => clock0 (S n))); [| closed | exact I | reflexivity].
  apply (reachable_call any_call MReserve GoInt.max_int
           (set_QuantityOnHand GoInt.max_int fresh) clock0 full
           (fun n => clock0 (S n))); [| closed | exact I | reflexivity].
  apply (reachable_call any_call MReplenish GoInt.max_int fresh clock0 _
           (fun n => clock0 (S n))); [| closed | exact I | reflexivity].
  apply reachable_fresh.
Qed.

Lemma reachable_negative : reachable any_call negative.
Proof.
  apply (reachable_call any_call MReserve 1 wrapped clock0 negative
           (fun n => clock0 (S n))); [| closed | exact I | reflexivity].
  apply reachable_wrapped.
Qed.

(** C3, as stated, fails: on the item with on-hand -2 and reserved [MaxInt],
    reached by successful calls, on-hand minus reserved is less than 1, yet
    [Reserve 1] succeeds, and it takes [QuantityReserved] to [MinInt] instead
    of adding 1 to it. *)
Lemma Reserve_wraps_reserved :
  reachable any_call wrapped /\
  QuantityOnHand wrapped - QuantityReserved wrapped < 1 /\
  Reserve 1 wrapped clock0 = ((negative, None), fun n => clock0 (S n)) /\
  QuantityReserved negative = GoInt.min_int /\
  QuantityReserved negative <> QuantityReserved wrapped + 1.
Proof.
  split; [apply reachable_wrapped|].
  split; [closed|]. split; [reflexivity|]. split; [reflexivity|].
  vm_compute. discriminate.
Qed.

(** C4, as stated, fails: on the item with on-hand -2 and reserved [MinInt],
    reached by successful calls, the available quantity is at least 1 and
    [Reserve 1] succeeds, but the [ReleaseReservation 1] that follows is
    refused with [ErrInsufficientReserved]. *)
Lemma Release_refused_after_Reserve :
  reachable any_call negative /\
  1 <= QuantityOnHand negative - QuantityReserved negative /\
  1 <= AvailableQuantity negative /\
  exists s1 c1,
    Reserve 1 negative clock0 = ((s1, None), c1) /\
    ReleaseReservation 1 s1 c1 = ((s1, Some ErrInsufficientReserved), c1).
Proof.
  split; [apply reachable_negative|].
  split; [closed|]. split; [closed|].
  exists (set_QuantityReserved (GoInt.min_int + 1) negative),
         (fun n => clock0 (S n)).
  split; reflexivity.
Qed.

(** C5, as stated, fails in its last part: on the item with on-hand -2 and
    reserved [MinInt], reached by successful calls, [Reserve 1] succeeds but
    the [Fulfill 1] that follows is refused with [ErrInsufficientReserved]
    and the on-hand quantity is not reduced. *)
Lemma Fulfill_refused_after_Reserve :
  reachable any_call negative /\
  exists s1 c1,
    Reserve 1 negative clock0 = ((s1, None), c1) /\
    Fulfill 1 s1 c1 = ((s1, Some ErrInsufficientReserved), c1) /\
    QuantityOnHand s1 = QuantityOnHand negative.
Proof.
  split; [apply reachable_negative|].
  exists (set_QuantityReserved (GoInt.min_int + 1) negative),
         (fun n => clock0 (S n)).
  split; [reflexivity|]. split; reflexivity.
Qed.

(** C9, as stated, fails in its last part: on the item two replenishments
    leave with on-hand [MinInt], [Reserve 0] and [Fulfill 0] are refused with
    [ErrInsufficientStock]. *)
Lemma zero_refused_after_overflow :
  reachable any_call overflowed /\
  Reserve 0 overflowed clock0
    = ((overflowed, Some ErrInsufficientStock), clock0) /\
  Fulfill 0 overflowed clock0
    = ((overflowed, Some ErrInsufficientStock), clock0).
Proof.
  split; [apply reachable_overflowed|]. split; reflexivity.
Qed.

(** C2. A stock item created by [NewStockItem] satisfies
    [0 <= QuantityReserved <= QuantityOnHand], and so does every state
    reached from it by successful calls of [Reserve], [ReleaseReservation]
    and [Fulfill] and by successful calls of [Replenish] whose sum
    [QuantityOnHand + quantity] does not exceed the largest [int]. *)
Theorem invariant_reachable s :
  reachable replenish_fits s -> invariant s.
Proof. intros H. apply reachable_fits_invariant, H. Qed.

Lemma invariant_reachable_witness :
  invariant (set_UpdatedAt 1700000000 (set_QuantityOnHand 10 fresh)).
Proof.
  apply invariant_reachable.
  apply (reachable_call replenish_fits MReplenish 10 fresh clock0 _
           (fun n => clock0 (S n))).
  - apply reachable_fresh.
  - closed.
  - closed.
  - vm_compute. reflexivity.
Defined.

(** C7, as stated, fails: no mutator of the entity meets the contract of
    [adjust]; at on-hand 10, reserved 3 and the signed quantity -2 each of
    them returns [ErrQuantityNegative]. *)
Lemma no_adjust_mutator : ~ exists m, adjust_contract (call m).
Proof.
  intros [m H].
  destruct (H item0 (-2) clock0) as (s' & c' & Hcall & _); try closed.
  rewrite negative_rejected in Hcall by reflexivity. discriminate.
Qed.

(** C7. The stock item has the four mutators [Reserve],
    [ReleaseReservation], [Fulfill] and [Replenish] and none that adjusts by
    a signed quantity: each of the four refuses a negative quantity with
    [ErrQuantityNegative] and changes nothing. For a quantity [q >= 0] whose
    sum with the on-hand quantity fits in an [int], [Replenish q] sets
    [QuantityOnHand] to [QuantityOnHand + q] and keeps [QuantityReserved]. *)
Theorem Replenish_spec s q c :
  well_typed s -> GoInt.in_range q ->
  (0 <= q -> QuantityOnHand s + q <= GoInt.max_int ->
   exists s',
     Replenish q s c = ((s', None), fun n => c (S n)) /\
     QuantityOnHand s' = QuantityOnHand s + q /\
     QuantityReserved s' = QuantityReserved s) /\
  (q < 0 ->
   forall m, call m q s c = ((s, Some ErrQuantityNegative), c)).
Proof.
  intros Hw Hq. split.
  - intros Hpos Hfit. eexists.
    split; [apply Replenish_ok; assumption|]. split; reflexivity.
  - intros Hneg m. apply negative_rejected, Hneg.
Qed.

Lemma Replenish_spec_witness :
  exists s',
    Replenish 5 item0 clock0 = ((s', None), fun n => clock0 (S n)) /\
    QuantityOnHand s' = 15 /\ QuantityReserved s' = 3.
Proof.
  destruct (Replenish_spec item0 5 clock0) as (Hok & _); [closed ..|].
  apply Hok; closed.
Defined.

End StockFacts.

(** ** The reservation state machine *)

Module ResvFacts.
Import Resv Samples.

Ltac run := cbv [call Confirm Release Fulfill Expire neq bind ret time_Now].

(** Every mutator refuses a terminal reservation and leaves it as it is,
    save [Release] on an expired one. *)
Lemma terminal_rejected m r c :
  terminal (Status r) ->
  ~ (m = MRelease /\ Status r = ReservationStatusExpired) ->
  exists e, call m r c = ((r, Some e), c).
Proof.
  intros Hterm Hnot.
  destruct Hterm as [Hs | [Hs | Hs]]; destruct m; run; rewrite Hs; cbn;
    try (eexists; reflexivity).
  exfalso. apply Hnot. split; [reflexivity | assumption].
Qed.

(** C1. The code at the failing input: on a reservation whose status is
    [EXPIRED], [Release] returns no error, moves the status to [RELEASED] and
    stamps [ReleasedAt] and [UpdatedAt] with the current time; no error is
    returned and the status does not stay [EXPIRED]. *)
Theorem Release_on_expired r c :
  Status r = ReservationStatusExpired ->
  exists r',
    Release r c = ((r', None), fun n => c (S n)) /\
    Status r' = ReservationStatusReleased /\
    ReleasedAt r' = Some (c 0%nat) /\
    UpdatedAt r' = c 0%nat /\
    Status r' <> Status r.
Proof.
  intros Hs. run. rewrite Hs. cbn.
  eexists. split; [reflexivity|]. cbn.
  repeat split. discriminate.
Qed.

Lemma Release_on_expired_witness :
  exists r1 c1 r2,
    Expire resv0 clock0 = ((r1, None), c1) /\
    Release r1 c1 = ((r2, None), fun n => c1 (S n)) /\
    Status r2 = ReservationStatusReleased.
Proof.
  exists (set_UpdatedAt (clock0 0%nat)
            (set_Status ReservationStatusExpired resv0)),
         (fun n => clock0 (S n)).
  destruct (Release_on_expired
              (set_UpdatedAt (clock0 0%nat)
                 (set_Status ReservationStatusExpired resv0))
              (fun n => clock0 (S n))) as (r2 & Hrun & Hst & _).
  - reflexivity.
  - exists r2. split; [reflexivity|]. split; [exact Hrun | exact Hst].
Defined.

(** C6. [Fulfill] on a reservation returns no error exactly when the status
    is [PENDING] or [CONFIRMED]; it then sets the status to [FULFILLED] and
    [FulfilledAt] to the current time; from any other status it returns an
    error and leaves the reservation as it was. *)
Theorem Fulfill_status r c :
  let '(r', e, c') := Fulfill r c in
  (e = None <->
     Status r = ReservationStatusPending \/
     Status r = ReservationStatusConfirmed) /\
  (e = None ->
     Status r' = ReservationStatusFulfilled /\
     FulfilledAt r' = Some (c 0%nat)) /\
  (e <> None -> r' = r /\ c' = c).
Proof.
  run.
  destruct (String.eqb_spec (Status r) ReservationStatusFulfilled) as [Hf|Hf].
  { rewrite Hf. split; [|split]; try discriminate; try tauto.
    split; [discriminate|]. intros [H|H]; discriminate H. }
  destruct (String.eqb_spec (Status r) ReservationStatusReleased) as [Hr|Hr].
  { rewrite Hr. split; [|split]; try discriminate; try tauto.
    split; [discriminate|]. intros [H|H]; discriminate H. }
  destruct (String.eqb_spec (Status r) ReservationStatusConfirmed) as [Hc|Hc];
    destruct (String.eqb_spec (Status r) ReservationStatusPending) as [Hp|Hp];
    cbn; (split; [|split]); try tauto; try discriminate;
    try (intros _; split; reflexivity);
    try (intros H; exfalso; apply H; reflexivity).
  split; [discriminate|]. intros [H|H]; contradiction.
Qed.

(** C10. On a [PENDING] reservation whose [ExpiresAt] lies before the current
    time, [Confirm] fails with [ErrReservationExpired] and leaves the
    reservation [PENDING]; [Confirm] returns no error, and then sets the
    status to [CONFIRMED], exactly when the reservation is [PENDING] and the
    current time is not after [ExpiresAt]. *)
Theorem Confirm_spec r c :
  let now := c 0%nat in
  (Status r = ReservationStatusPending -> ExpiresAt r < now ->
   Confirm r c = ((r, Some ErrReservationExpired), fun n => c (S n))) /\
  (Status r = ReservationStatusPending -> now <= ExpiresAt r ->
   exists r',
     Confirm r c = ((r', None), fun n => c (S (S n))) /\
     Status r' = ReservationStatusConfirmed) /\
  (forall r' c',
     Confirm r c = ((r', None), c') ->
     Status r = ReservationStatusPending /\ now <= ExpiresAt r /\
     Status r' = ReservationStatusConfirmed).
Proof.
  intros now. split; [|split].
  - intros Hs Hlt. run. rewrite Hs. cbn. unfold After.
    destruct (Z.ltb_spec (ExpiresAt r) (c 0%nat)); [reflexivity|].
    subst now. lia.
  - intros Hs Hle. run. rewrite Hs. cbn. unfold After.
    destruct (Z.ltb_spec (ExpiresAt r) (c 0%nat)); [subst now; lia|].
    eexists. split; reflexivity.
  - intros r' c'. run.
    destruct (String.eqb_spec (Status r) ReservationStatusPending) as [Hs|Hs];
      cbn; [|discriminate].
    unfold After.
    destruct (Z.ltb_spec (ExpiresAt r) (c 0%nat)) as [Hlt|Hle];
      [discriminate|].
    intros Heq. injection Heq as <- _.
    split; [assumption|]. split; [subst now; lia | reflexivity].
Qed.

Lemma Fulfill_status_witness :
  Status (fst (fst (Fulfill resv0 clock0))) = ReservationStatusFulfilled /\
  FulfilledAt (fst (fst (Fulfill resv0 clock0))) = Some 1700000000.
Proof.
  exact (proj1 (proj2 (Fulfill_status resv0 clock0)) eq_refl).
Defined.

Lemma Confirm_spec_witness :
  Confirm resv_late clock0
  = ((resv_late, Some ErrReservationExpired), fun n => clock0 (S n)).
Proof.
  apply (proj1 (Confirm_spec resv_late clock0)).
  - reflexivity.
  - vm_compute. reflexivity.
Defined.

End ResvFacts.

(** ** The outbox work queue *)

Module OutboxFacts.
Import Outbox Samples.

Lemma insert_In e x l :
  In x (insert_by_created_at e l) <-> x = e \/ In x l.
Proof.
  induction l as [|y l IH]; cbn.
  - intuition.
  - destruct (CreatedAt e <=? CreatedAt y); cbn; [intuition|].
    rewrite IH. intuition.
Qed.

Lemma insert_Forall (P : OutboxEntry -> Prop) e l :
  P e -> Forall P l -> Forall P (insert_by_created_at e l).
Proof.
  intros He Hl. apply Forall_forall. intros x Hx.
  apply insert_In in Hx as [-> | Hx]; [assumption|].
  rewrite Forall_forall in Hl. auto.
Qed.

Lemma insert_sorted e l :
  StronglySorted created_at_le l ->
  StronglySorted created_at_le (insert_by_created_at e l).
Proof.
  induction 1 as [|y l Hs IH Hy]; cbn.
  - constructor; constructor.
  - destruct (Z.leb_spec (CreatedAt e) (CreatedAt y)) as [Hle|Hgt].
    + constructor; [constructor; assumption|].
      constructor; [exact Hle|].
      eapply Forall_impl; [|exact Hy].
      unfold created_at_le. intros z Hz. lia.
    + constructor; [exact IH|].
      apply insert_Forall; [unfold created_at_le; lia | exact Hy].
Qed.

Lemma order_by_sorted l : StronglySorted created_at_le (order_by_created_at l).
Proof.
  induction l as [|e l IH]; cbn.
  - constructor.
  - apply insert_sorted, IH.
Qed.

Lemma order_by_In x l : In x (order_by_created_at l) <-> In x l.
Proof.
  induction l as [|e l IH]; cbn.
  - tauto.
  - rewrite insert_In, IH. intuition.
Qed.

Lemma order_by_Permutation l : Permutation l (order_by_created_at l).
Proof.
  induction l as [|e l IH]; cbn.
  - constructor.
  - transitivity (e :: order_by_created_at l); [constructor; exact IH|].
    clear IH. fold (order_by_created_at l).
    generalize (order_by_created_at l) as k.
    induction k as [|y k IHk]; cbn.
    + reflexivity.
    + destruct (CreatedAt e <=? CreatedAt y); [reflexivity|].
      etransitivity; [apply perm_swap|]. constructor. exact IHk.
Qed.

Lemma firstn_In n (l : list OutboxEntry) x : In x (firstn n l) -> In x l.
Proof.
  revert n. induction l as [|y l IH]; intros [|n]; cbn; try tauto.
  intros [Hx | Hx]; [left; exact Hx | right; exact (IH n Hx)].
Qed.

Lemma firstn_sorted n (l : list OutboxEntry) :
  StronglySorted created_at_le l ->
  StronglySorted created_at_le (firstn n l).
Proof.
  intros Hs. revert n.
  induction Hs as [|y l Hs IH Hy]; intros [|n]; cbn; try constructor.
  - apply IH.
  - apply Forall_forall. intros z Hz. rewrite Forall_forall in Hy.
    apply Hy. exact (firstn_In n l z Hz).
Qed.

Lemma where_clause_true maxRetries e :
  where_clause maxRetries e = true <->
  PublishedAt e = None /\ RetryCount e < maxRetries.
Proof.
  unfold where_clause. rewrite andb_true_iff, Z.ltb_lt.
  destruct (PublishedAt e); intuition discriminate.
Qed.

(** C8. With a batch size [limit >= 0] the selection returns rows of the
    outbox table only, each with [published_at] unset and [retry_count]
    strictly below [MaxRetries]; a row whose [retry_count] has reached
    [MaxRetries] is never returned; the rows come in ascending order of
    [created_at], and there are at most [limit] of them. *)
Theorem fetchPendingEntries_spec db config limit :
  0 <= limit ->
  exists entries,
    fetchPendingEntries db config limit = (entries, None) /\
    (forall e, In e entries ->
       In e (outbox db) /\ PublishedAt e = None /\
       RetryCount e < MaxRetries config) /\
    (forall e, MaxRetries config <= RetryCount e -> ~ In e entries) /\
    StronglySorted created_at_le entries /\
    Z.of_nat (List.length entries) <= limit.
Proof.
  intros Hlimit. unfold fetchPendingEntries.
  destruct (Z.ltb_spec limit 0) as [Hneg|_]; [lia|].
  eexists. split; [reflexivity|].
  assert (forall e,
    In e (firstn (Z.to_nat limit)
            (order_by_created_at
               (filter (fun e0 => where_clause (MaxRetries config) e0
                                  && skip_locked db e0) (outbox db)))) ->
    In e (outbox db) /\ PublishedAt e = None /\
    RetryCount e < MaxRetries config) as Hsound.
  { intros e He. apply firstn_In, order_by_In, filter_In in He.
    destruct He as [Hin Hcond]. apply andb_true_iff in Hcond as [Hw _].
    apply where_clause_true in Hw. tauto. }
  split; [exact Hsound|]. split; [|split].
  - intros e Hq He. apply Hsound in He. lia.
  - apply firstn_sorted, order_by_sorted.
  - pose proof (firstn_le_length (Z.to_nat limit)
      (order_by_created_at
         (filter (fun e0 => where_clause (MaxRetries config) e0
                            && skip_locked db e0) (outbox db)))).
    lia.
Qed.

Example fetchPendingEntries_db0 :
  fetchPendingEntries db0 DefaultOutboxConfig 2
  = ([row "e4" 5 None 1; row "e1" 30 None 0], None).
Proof. reflexivity. Qed.

Lemma fetchPendingEntries_spec_witness :
  exists entries,
    fetchPendingEntries db0 DefaultOutboxConfig 2 = (entries, None) /\
    StronglySorted created_at_le entries /\
    Z.of_nat (List.length entries) <= 2.
Proof.
  destruct (fetchPendingEntries_spec db0 DefaultOutboxConfig 2)
    as (entries & Hrun & _ & _ & Hsorted & Hlen).
  - vm_compute. discriminate.
  - exists entries. split; [exact Hrun|]. split; [exact Hsorted | exact Hlen].
Defined.

End OutboxFacts.

(** ** More on the stock ledger *)

Module StockMore.
Import Stock Samples StockFacts.

(** X1. Whenever [Reserve], [ReleaseReservation], [Fulfill] or [Replenish]
    returns an error, the stock item is left exactly as it was and the clock
    has not been read; the error is one of [ErrQuantityNegative],
    [ErrInsufficientStock] and [ErrInsufficientReserved]. *)
Theorem mutator_error_keeps_item m q s c s' e c' :
  call m q s c = ((s', Some e), c') ->
  s' = s /\ c' = c /\
  (e = ErrQuantityNegative \/ e = ErrInsufficientStock \/
   e = ErrInsufficientReserved).
Proof.
  destruct m; run;
    repeat match goal with
      | |- context [?a <? ?b] => destruct (a <? b)
      end;
    intros H; inversion H; subst; auto.
Qed.

Lemma mutator_error_keeps_item_witness :
  fst (fst (Reserve 8 item0 clock0)) = item0.
Proof.
  exact (proj1 (mutator_error_keeps_item MReserve 8 item0 clock0
                  (fst (fst (Reserve 8 item0 clock0))) ErrInsufficientStock
                  (snd (Reserve 8 item0 clock0)) eq_refl)).
Defined.

(** X2. A successful call of a mutator took a quantity that is not negative,
    keeps the identity of the item ([ID], [ProductID], [WarehouseID]), its
    reorder settings and [CreatedAt], and stamps [UpdatedAt] with the one
    clock reading it consumes. [Reserve] and [ReleaseReservation] keep
    [QuantityOnHand]; [Replenish] keeps [QuantityReserved]. *)
Theorem mutator_success_frame m q s c s' c' :
  call m q s c = ((s', None), c') ->
  0 <= q /\
  ID s' = ID s /\ ProductID s' = ProductID s /\
  WarehouseID s' = WarehouseID s /\
  ReorderPoint s' = ReorderPoint s /\
  ReorderQuantity s' = ReorderQuantity s /\
  CreatedAt s' = CreatedAt s /\
  UpdatedAt s' = c 0%nat /\ c' = (fun n => c (S n)) /\
  (m = MReserve \/ m = MReleaseReservation ->
   QuantityOnHand s' = QuantityOnHand s) /\
  (m = MReplenish -> QuantityReserved s' = QuantityReserved s).
Proof.
  destruct m; run;
    repeat match goal with
      | |- context [?a <? ?b] => destruct (Z.ltb_spec a b)
      end;
    intros Hrun; inversion Hrun; subst; cbn;
    repeat split; auto; try lia; intros; try discriminate;
    match goal with
    | Hm : _ \/ _ |- _ => destruct Hm; discriminate
    end.
Qed.

Lemma mutator_success_frame_witness :
  exists s',
    fst (fst (Replenish 5 item0 clock0)) = s' /\
    ID s' = "stock-1" /\ UpdatedAt s' = 1700000000 /\ QuantityReserved s' = 3.
Proof.
  destruct (mutator_success_frame MReplenish 5 item0 clock0
              (fst (fst (Replenish 5 item0 clock0)))
              (fun n => clock0 (S n)))
    as (_ & Hid & _ & _ & _ & _ & _ & Hup & _ & _ & Hres).
  - reflexivity.
  - eexists. split; [reflexivity|]. split; [exact Hid|].
    split; [exact Hup | exact (Hres eq_refl)].
Defined.

(** X3. A successful [Fulfill] leaves the value of [AvailableQuantity]
    unchanged, and with it the answers of [NeedsReorder] and [IsLowStock]:
    shipping reserved stock frees nothing and consumes nothing that was
    available. *)
Theorem Fulfill_keeps_available q s c s' c' :
  well_typed s ->
  Fulfill q s c = ((s', None), c') ->
  AvailableQuantity s' = AvailableQuantity s /\
  NeedsReorder s' = NeedsReorder s /\
  IsLowStock s' = IsLowStock s.
Proof.
  intros Hw Hrun.
  destruct (Z.lt_ge_cases q 0) as [Hneg|Hq].
  { rewrite (negative_rejected MFulfill) in Hrun by assumption. discriminate. }
  destruct (Z.lt_ge_cases (QuantityReserved s) q).
  { rewrite Fulfill_short_reserved in Hrun by lia. discriminate. }
  destruct (Z.lt_ge_cases (QuantityOnHand s) q).
  { rewrite Fulfill_short_on_hand in Hrun by lia. discriminate. }
  rewrite Fulfill_ok in Hrun by (auto; lia).
  injection Hrun as <- _.
  assert (AvailableQuantity
            (set_UpdatedAt (c 0%nat)
               (set_QuantityOnHand (QuantityOnHand s - q)
                  (set_QuantityReserved (QuantityReserved s - q) s)))
          = AvailableQuantity s) as Hav.
  { unfold AvailableQuantity, GoInt.sub. cbn. f_equal. lia. }
  unfold NeedsReorder, IsLowStock. rewrite Hav. cbn. auto.
Qed.

Lemma Fulfill_keeps_available_witness :
  AvailableQuantity (fst (fst (Fulfill 2 item0 clock0))) = AvailableQuantity item0.
Proof.
  apply (Fulfill_keeps_available 2 item0 clock0 _ (fun n => clock0 (S n))).
  - closed.
  - reflexivity.
Defined.

(** X4. [NewStockItem] returns an item exactly when the three identifiers are
    not empty and neither reorder setting is negative. The item then has both
    counters at zero, satisfies the ledger invariant, carries the clock
    reading in [CreatedAt] and [UpdatedAt], and already needs reordering. *)
Theorem NewStockItem_spec id productID warehouseID rp rq c :
  let '(res, err, c') := NewStockItem id productID warehouseID rp rq c in
  (err = None <->
     id <> "" /\ productID <> "" /\ warehouseID <> "" /\ 0 <= rp /\ 0 <= rq) /\
  (err = None ->
     exists s,
       res = Some s /\ c' = (fun n => c (S n)) /\
       QuantityOnHand s = 0 /\ QuantityReserved s = 0 /\ invariant s /\
       CreatedAt s = c 0%nat /\ UpdatedAt s = c 0%nat /\
       NeedsReorder s = true) /\
  (err <> None -> res = None /\ c' = c).
Proof.
  unfold NewStockItem.
  destruct (String.eqb_spec id "") as [Hid|Hid];
    [cbn; repeat split; try discriminate; tauto|].
  destruct (String.eqb_spec productID "") as [Hp|Hp];
    [cbn; repeat split; try discriminate; tauto|].
  destruct (String.eqb_spec warehouseID "") as [Hw|Hw];
    [cbn; repeat split; try discriminate; tauto|].
  destruct (Z.ltb_spec rp 0) as [Hrp|Hrp];
    [cbn; repeat split; try discriminate; try tauto; intros; lia|].
  destruct (Z.ltb_spec rq 0) as [Hrq|Hrq];
    [cbn; repeat split; try discriminate; try tauto; intros; lia|].
  cbn. split; [tauto|]. split; [|intros H; contradiction H; reflexivity].
  intros _. eexists. split; [reflexivity|]. cbn.
  repeat split; try reflexivity; try (unfold invariant; cbn; lia).
  unfold NeedsReorder, AvailableQuantity. cbn.
  change (GoInt.sub 0 0) with 0. apply Z.leb_le. exact Hrp.
Qed.

(** X5. On a stock item that satisfies the ledger invariant, releasing a
    quantity [q] that is reserved and reserving it again both succeed and
    bring the two counters back to where they were. *)
Theorem Release_then_Reserve s q c :
  invariant s -> well_typed s -> 0 <= q -> q <= QuantityReserved s ->
  exists s1 c1 s2 c2,
    ReleaseReservation q s c = ((s1, None), c1) /\
    Reserve q s1 c1 = ((s2, None), c2) /\
    QuantityOnHand s2 = QuantityOnHand s /\
    QuantityReserved s2 = QuantityReserved s.
Proof.
  intros Hi Hw Hq Hle.
  do 4 eexists. split; [apply ReleaseReservation_ok; auto|].
  split.
  - apply Reserve_ok; [split | | |]; cbn; int_bounds; lia.
  - cbn. split; lia.
Qed.

Lemma Release_then_Reserve_witness :
  exists s1 c1 s2 c2,
    ReleaseReservation 3 item0 clock0 = ((s1, None), c1) /\
    Reserve 3 s1 c1 = ((s2, None), c2) /\
    QuantityOnHand s2 = 10 /\ QuantityReserved s2 = 3.
Proof. apply (Release_then_Reserve item0 3 clock0); closed. Defined.

(** X6. On a stock item that satisfies the ledger invariant two reservations
    in a row behave as one reservation of the sum: when [q1 + q2] is
    available both succeed and leave the counters [Reserve (q1 + q2)] leaves;
    when it is not, the second is refused with [ErrInsufficientStock] if the
    first went through. Stock is never reserved beyond what is on hand. *)
Theorem Reserve_twice s q1 q2 c :
  invariant s -> well_typed s -> 0 <= q1 -> 0 <= q2 ->
  let available := QuantityOnHand s - QuantityReserved s in
  (q1 + q2 <= available ->
   exists s1 c1 s2 c2 s12 c12,
     Reserve q1 s c = ((s1, None), c1) /\
     Reserve q2 s1 c1 = ((s2, None), c2) /\
     Reserve (q1 + q2) s c = ((s12, None), c12) /\
     QuantityReserved s2 = QuantityReserved s12 /\
     QuantityOnHand s2 = QuantityOnHand s12 /\
     QuantityReserved s2 <= QuantityOnHand s2) /\
  (available < q1 + q2 ->
   forall s1 c1,
     Reserve q1 s c = ((s1, None), c1) ->
     Reserve q2 s1 c1 = ((s1, Some ErrInsufficientStock), c1)).
Proof.
  intros Hi Hw Hq1 Hq2 available.
  pose proof (invariant_available s Hi Hw) as Ha.
  split.
  - intros Hle. subst available.
    do 6 eexists. split; [apply Reserve_ok; auto; lia|].
    split; [apply Reserve_ok; [split | | |]; cbn; int_bounds; lia|].
    split; [apply Reserve_ok; auto; lia|].
    cbn. int_bounds. lia.
  - intros Hlt s1 c1 Hrun. subst available.
    destruct (Z.lt_ge_cases (QuantityOnHand s - QuantityReserved s) q1).
    { rewrite Reserve_short in Hrun by (auto; lia). discriminate. }
    rewrite Reserve_ok in Hrun by (auto; lia).
    injection Hrun as <- <-.
    apply Reserve_short; cbn; int_bounds; lia.
Qed.

Lemma Reserve_twice_witness :
  exists s1 c1 s2 c2 s12 c12,
    Reserve 3 item0 clock0 = ((s1, None), c1) /\
    Reserve 4 s1 c1 = ((s2, None), c2) /\
    Reserve (3 + 4) item0 clock0 = ((s12, None), c12) /\
    QuantityReserved s2 = QuantityReserved s12 /\
    QuantityOnHand s2 = QuantityOnHand s12 /\
    QuantityReserved s2 <= QuantityOnHand s2.
Proof.
  destruct (Reserve_twice item0 3 4 clock0) as (Hok & _); [closed ..|].
  apply Hok. closed.
Defined.

End StockMore.

(** ** More on the reservation state machine *)

Module ResvMore.
Import Resv ResvRuns Samples.

Ltac run := cbv [call Confirm Release Fulfill Expire neq bind ret time_Now].

(** X7. [Expire] returns no error exactly when the status is [PENDING] or
    [CONFIRMED]; it then sets the status to [EXPIRED] and [UpdatedAt] to the
    current time and changes nothing else. From any other status it returns
    [ErrReservationNotPending], changes nothing and does not read the
    clock. *)
Theorem Expire_spec r c :
  let '(r', e, c') := Expire r c in
  (e = None <->
     Status r = ReservationStatusPending \/
     Status r = ReservationStatusConfirmed) /\
  (e = None ->
     r' = set_UpdatedAt (c 0%nat) (set_Status ReservationStatusExpired r) /\
     c' = (fun n => c (S n))) /\
  (e <> None -> e = Some ErrReservationNotPending /\ r' = r /\ c' = c).
Proof.
  run.
  destruct (String.eqb_spec (Status r) ReservationStatusPending) as [Hp|Hp];
    destruct (String.eqb_spec (Status r) ReservationStatusConfirmed) as [Hc|Hc];
    cbn; (split; [|split]); try tauto; try discriminate;
    try (intros _; split; reflexivity);
    try (intros H; exfalso; apply H; reflexivity);
    try (intros _; repeat split; reflexivity).
  split; [discriminate|]. intros [H|H]; contradiction.
Qed.

(** X8. [Release] returns an error exactly when the status is [RELEASED]
    ([ErrReservationAlreadyReleased]) or [FULFILLED]
    ([ErrReservationAlreadyFulfilled]), and then changes nothing. From every
    other status it sets the status to [RELEASED] and both [ReleasedAt] and
    [UpdatedAt] to the current time, keeping the other fields. *)
Theorem Release_spec r c :
  let '(r', e, c') := Release r c in
  (e = Some ErrReservationAlreadyReleased <->
     Status r = ReservationStatusReleased) /\
  (e = Some ErrReservationAlreadyFulfilled <->
     Status r = ReservationStatusFulfilled) /\
  (e <> None ->
     (Status r = ReservationStatusReleased \/
      Status r = ReservationStatusFulfilled) /\ r' = r /\ c' = c) /\
  (e = None ->
     r' = set_UpdatedAt (c 0%nat)
            (set_ReleasedAt (Some (c 0%nat))
               (set_Status ReservationStatusReleased r)) /\
     c' = (fun n => c (S n))).
Proof.
  run.
  destruct (String.eqb_spec (Status r) ReservationStatusReleased) as [Hr|Hr].
  { rewrite Hr. cbn. repeat split; try discriminate; auto. }
  destruct (String.eqb_spec (Status r) ReservationStatusFulfilled) as [Hf|Hf].
  { rewrite Hf. cbn. repeat split; try discriminate; auto. }
  cbn. repeat split; try discriminate; try contradiction; auto;
    intros Hn; contradiction Hn; reflexivity.
Qed.

(** X9. An error from [Confirm], [Release], [Fulfill] or [Expire] leaves the
    reservation exactly as it was. *)
Theorem mutator_error_keeps_reservation m r c r' e c' :
  call m r c = ((r', Some e), c') -> r' = r.
Proof.
  destruct m; run;
    repeat match goal with
      | |- context [if ?b then _ else _] => destruct b
      end;
    intros Hrun; inversion Hrun; reflexivity.
Qed.

Lemma mutator_error_keeps_reservation_witness :
  fst (fst (Confirm resv_late clock0)) = resv_late.
Proof.
  exact (mutator_error_keeps_reservation MConfirm resv_late clock0
           (fst (fst (Confirm resv_late clock0))) ErrReservationExpired
           (snd (Confirm resv_late clock0)) eq_refl).
Defined.

(** X10. No mutator succeeds twice in a row: called again on the reservation
    a successful call left, each of [Confirm], [Release], [Fulfill] and
    [Expire] returns an error, whatever the time, and changes nothing. *)
Theorem mutator_not_repeatable m r c r' c' :
  call m r c = ((r', None), c') ->
  exists e, forall c2, call m r' c2 = ((r', Some e), c2).
Proof.
  destruct m; run.
  - destruct (String.eqb (Status r) ReservationStatusPending); cbn;
      [|discriminate].
    destruct (After (c 0%nat) (ExpiresAt r)); [discriminate|].
    intros Hrun. injection Hrun as <- _. cbn.
    eexists. intros c2. reflexivity.
  - destruct (String.eqb (Status r) ReservationStatusReleased); [discriminate|].
    destruct (String.eqb (Status r) ReservationStatusFulfilled); [discriminate|].
    intros Hrun. injection Hrun as <- _. cbn.
    eexists. intros c2. reflexivity.
  - destruct (String.eqb (Status r) ReservationStatusFulfilled); [discriminate|].
    destruct (String.eqb (Status r) ReservationStatusReleased); [discriminate|].
    destruct (negb (String.eqb (Status r) ReservationStatusConfirmed)
              && negb (String.eqb (Status r) ReservationStatusPending));
      [discriminate|].
    intros Hrun. injection Hrun as <- _. cbn.
    eexists. intros c2. reflexivity.
  - destruct (negb (String.eqb (Status r) ReservationStatusPending)
              && negb (String.eqb (Status r) ReservationStatusConfirmed));
      [discriminate|].
    intros Hrun. injection Hrun as <- _. cbn.
    eexists. intros c2. reflexivity.
Qed.

Lemma mutator_not_repeatable_witness :
  exists e, forall c2,
    Confirm (fst (fst (Confirm resv0 clock0))) c2
    = ((fst (fst (Confirm resv0 clock0)), Some e), c2).
Proof.
  exact (mutator_not_repeatable MConfirm resv0 clock0
           (fst (fst (Confirm resv0 clock0)))
           (snd (Confirm resv0 clock0)) eq_refl).
Defined.



End ResvMore.

(** ** Reservations over their lifetime *)

Module ResvLife.
Import Resv ResvRuns Samples.

Ltac run := cbv [call Confirm Release Fulfill Expire neq bind ret time_Now].

(** What a call can do to a reservation: nothing, or one of the four
    transitions, each from the statuses it accepts. *)
Lemma reservation_call_outcome m r c r' e c' :
  call m r c = ((r', e), c') ->
  r' = r \/
  (exists t,
     Status r = ReservationStatusPending /\
     r' = set_UpdatedAt t (set_Status ReservationStatusConfirmed r)) \/
  (exists t,
     Status r <> ReservationStatusReleased /\
     Status r <> ReservationStatusFulfilled /\
     r' = set_UpdatedAt t
            (set_ReleasedAt (Some t)
               (set_Status ReservationStatusReleased r))) \/
  (exists t,
     (Status r = ReservationStatusPending \/
      Status r = ReservationStatusConfirmed) /\
     r' = set_UpdatedAt t
            (set_FulfilledAt (Some t)
               (set_Status ReservationStatusFulfilled r))) \/
  (exists t,
     (Status r = ReservationStatusPending \/
      Status r = ReservationStatusConfirmed) /\
     r' = set_UpdatedAt t (set_Status ReservationStatusExpired r)).
Proof.
  destruct m; run.
  - destruct (String.eqb_spec (Status r) ReservationStatusPending) as [Hp|Hp];
      cbn; [|intros Hrun; injection Hrun as <- _ _; auto].
    destruct (After (c 0%nat) (ExpiresAt r));
      intros Hrun; injection Hrun as <- _ _; [auto|].
    right. left. eexists. split; [exact Hp | reflexivity].
  - destruct (String.eqb_spec (Status r) ReservationStatusReleased) as [Hr|Hr];
      [intros Hrun; injection Hrun as <- _ _; auto|].
    destruct (String.eqb_spec (Status r) ReservationStatusFulfilled) as [Hf|Hf];
      intros Hrun; injection Hrun as <- _ _; [auto|].
    right. right. left. eexists. repeat split; assumption.
  - destruct (String.eqb_spec (Status r) ReservationStatusFulfilled) as [Hf|Hf];
      [intros Hrun; injection Hrun as <- _ _; auto|].
    destruct (String.eqb_spec (Status r) ReservationStatusReleased) as [Hr|Hr];
      [intros Hrun; injection Hrun as <- _ _; auto|].
    destruct (String.eqb_spec (Status r) ReservationStatusConfirmed) as [Hc|Hc];
      destruct (String.eqb_spec (Status r) ReservationStatusPending) as [Hp|Hp];
      cbn; intros Hrun; injection Hrun as <- _ _; auto;
      right; right; right; left; eexists; (split; [|reflexivity]); auto.
  - destruct (String.eqb_spec (Status r) ReservationStatusPending) as [Hp|Hp];
      destruct (String.eqb_spec (Status r) ReservationStatusConfirmed) as [Hc|Hc];
      cbn; intros Hrun; injection Hrun as <- _ _; auto;
      right; right; right; right; eexists; (split; [|reflexivity]); auto.
Qed.

Lemma no_nonpositive_quantity items :
  existsb (fun item => Quantity item <=? 0) items = false <->
  Forall (fun item => 0 < Quantity item) items.
Proof.
  induction items as [|i items IH]; cbn.
  - split; [constructor | reflexivity].
  - rewrite orb_false_iff, IH, Z.leb_gt. split.
    + intros [Hq Hall]. constructor; assumption.
    + intros Hall. inversion Hall; subst. split; assumption.
Qed.

(** X12. [NewReservation] returns a reservation exactly when [id] and
    [orderID] are not empty, there is at least one item and every item has a
    positive quantity. The reservation is [PENDING], holds the arguments as
    given, both timestamps at the current time and neither [ReleasedAt] nor
    [FulfilledAt]; the expiry time is stored unchecked. *)
Theorem NewReservation_spec id orderID items expiresAt c :
  let '(res, err, c') := NewReservation id orderID items expiresAt c in
  (err = None <->
     id <> "" /\ orderID <> "" /\ items <> [] /\
     Forall (fun item => 0 < Quantity item) items) /\
  (err = None ->
     res = Some (mkReservation id orderID items ReservationStatusPending
                   expiresAt (c 0%nat) (c 0%nat) None None) /\
     c' = (fun n => c (S n))) /\
  (err <> None -> res = None /\ c' = c).
Proof.
  unfold NewReservation.
  destruct (String.eqb_spec id "") as [Hid|Hid];
    [cbn; repeat split; try discriminate; tauto|].
  destruct (String.eqb_spec orderID "") as [Ho|Ho];
    [cbn; repeat split; try discriminate; tauto|].
  destruct items as [|i items].
  { cbn. repeat split; try discriminate; tauto. }
  cbn [List.length Nat.eqb].
  destruct (existsb (fun item => Quantity item <=? 0) (i :: items)) eqn:Hq.
  - cbn. repeat split; try discriminate.
    intros (_ & _ & _ & Hall). apply no_nonpositive_quantity in Hall.
    congruence.
  - apply no_nonpositive_quantity in Hq.
    cbn. split; [|split].
    + split; [|reflexivity]. intros _. repeat split; auto. discriminate.
    + intros _. split; reflexivity.
    + intros Hn. contradiction Hn. reflexivity.
Qed.

(** X13. Every value a reservation takes, from [NewReservation] on and
    through any calls of its mutators, has one of the five declared statuses,
    has [FulfilledAt] set exactly when it is [FULFILLED] and [ReleasedAt] set
    exactly when it is [RELEASED], and keeps a non-empty [ID] and [OrderID]
    and a non-empty list of items of positive quantity. *)
Theorem lifecycle_invariant r :
  lifecycle r ->
  known_status (Status r) /\
  (FulfilledAt r <> None <-> Status r = ReservationStatusFulfilled) /\
  (ReleasedAt r <> None <-> Status r = ReservationStatusReleased) /\
  ID r <> "" /\ OrderID r <> "" /\ Items r <> [] /\
  Forall (fun item => 0 < Quantity item) (Items r).
Proof.
  induction 1 as [id orderID items expiresAt c r c' Hnew
                 | m r c r' e c' Hlife IH Hcall].
  - unfold NewReservation in Hnew.
    destruct (String.eqb_spec id "") as [Hid|Hid]; [discriminate|].
    destruct (String.eqb_spec orderID "") as [Ho|Ho]; [discriminate|].
    destruct items as [|i items]; [discriminate|].
    cbn [List.length Nat.eqb] in Hnew.
    destruct (existsb (fun item => Quantity item <=? 0) (i :: items)) eqn:Hq;
      [discriminate|].
    apply no_nonpositive_quantity in Hq.
    injection Hnew as <- _. cbn. unfold known_status.
    repeat split; auto; try discriminate; intros Hn; contradiction Hn;
      reflexivity.
  - destruct IH as (Hk & Hf & Hr & Hid & Ho & Hitems & Hpos).
    apply reservation_call_outcome in Hcall.
    destruct Hcall as [-> | [(t & Hs & ->) | [(t & Hnr & Hnf & ->)
                      | [(t & Hs & ->) | (t & Hs & ->)]]]];
      [repeat split; tauto | | | |]; cbn; unfold known_status;
      (split; [tauto|]).
    + rewrite Hs in Hf, Hr.
      repeat split; auto; try discriminate; try tauto;
        intros Hn; first [apply Hf in Hn | apply Hr in Hn]; discriminate.
    + assert (FulfilledAt r = None) as ->
        by (destruct (FulfilledAt r); [exfalso; apply Hnf, Hf; discriminate
                                      | reflexivity]).
      repeat split; auto; try discriminate; try tauto;
        try (intros Hn; contradiction Hn; reflexivity);
        try (intros Hn; first [apply Hf in Hn | apply Hr in Hn];
             congruence).
    + assert (ReleasedAt r = None) as ->.
      { destruct (ReleasedAt r); [|reflexivity].
        assert (Status r = ReservationStatusReleased) as Hrel
          by (apply Hr; discriminate).
        destruct Hs as [Hs|Hs]; rewrite Hs in Hrel; discriminate. }
      repeat split; auto; try discriminate; try tauto;
        try (intros Hn; contradiction Hn; reflexivity);
        try (intros Hn; first [apply Hf in Hn | apply Hr in Hn];
             congruence).
    + assert (ReleasedAt r = None) as ->.
      { destruct (ReleasedAt r); [|reflexivity].
        assert (Status r = ReservationStatusReleased) as Hrel
          by (apply Hr; discriminate).
        destruct Hs as [Hs|Hs]; rewrite Hs in Hrel; discriminate. }
      assert (FulfilledAt r = None) as ->.
      { destruct (FulfilledAt r); [|reflexivity].
        assert (Status r = ReservationStatusFulfilled) as Hful
          by (apply Hf; discriminate).
        destruct Hs as [Hs|Hs]; rewrite Hs in Hful; discriminate. }
      repeat split; auto; try discriminate; try tauto;
        try (intros Hn; contradiction Hn; reflexivity);
        try (intros Hn; first [apply Hf in Hn | apply Hr in Hn];
             congruence).
Qed.

Lemma lifecycle_invariant_witness :
  known_status (Status (fst (fst (Release resv0 clock0)))) /\
  ReleasedAt (fst (fst (Release resv0 clock0))) <> None.
Proof.
  destruct (lifecycle_invariant (fst (fst (Release resv0 clock0))))
    as (Hk & _ & Hr & _).
  - apply (lifecycle_call MRelease resv0 clock0 _ None
             (fun n => clock0 (S n))).
    + apply (lifecycle_new "reservation-1" "order-1"
               [mkReservationItem "stock-1" "product-1" "warehouse-1" 3]
               1700000900 clock0 resv0 (fun n => clock0 (S n))).
      reflexivity.
    + reflexivity.
  - split; [exact Hk|]. apply Hr. reflexivity.
Defined.

End ResvLife.

(** ** Expiry and totals of a reservation *)

Module ResvQueries.
Import Resv ResvRuns Samples.

(** X14. At any one time [IsExpired] and [Confirm] agree on a [PENDING]
    reservation: [IsExpired] answers true exactly when [Confirm] refuses it
    with [ErrReservationExpired]. A [FULFILLED] or [RELEASED] reservation is
    never reported expired, however late it is. *)
Theorem IsExpired_agrees_with_Confirm r c :
  (Status r = ReservationStatusPending ->
   (fst (IsExpired r c) = true <->
    fst (Confirm r c) = (r, Some ErrReservationExpired))) /\
  (Status r = ReservationStatusFulfilled \/
   Status r = ReservationStatusReleased ->
   fst (IsExpired r c) = false).
Proof.
  split.
  - intros Hs. cbv [IsExpired Confirm neq bind ret time_Now]. rewrite Hs. cbn.
    destruct (After (c 0%nat) (ExpiresAt r)); cbn.
    + split; reflexivity.
    + split; [discriminate|]. intros H. inversion H.
  - intros [Hs|Hs]; cbv [IsExpired neq bind ret time_Now]; rewrite Hs; cbn;
      destruct (After (c 0%nat) (ExpiresAt r)); reflexivity.
Qed.

Lemma IsExpired_agrees_with_Confirm_witness :
  fst (IsExpired resv_late clock0) = true <->
  fst (Confirm resv_late clock0) = (resv_late, Some ErrReservationExpired).
Proof.
  apply (proj1 (IsExpired_agrees_with_Confirm resv_late clock0)).
  reflexivity.
Defined.

Lemma wrap_add_wrap a b : GoInt.wrap (GoInt.wrap a + b) = GoInt.wrap (a + b).
Proof.
  unfold GoInt.wrap. f_equal.
  replace ((a - GoInt.min_int) mod GoInt.modulus + GoInt.min_int + b
           - GoInt.min_int)
    with ((a - GoInt.min_int) mod GoInt.modulus + b) by lia.
  rewrite Zplus_mod_idemp_l. f_equal. lia.
Qed.

Lemma fold_add_wrap items a :
  fold_left (fun total item => GoInt.add total (Quantity item)) items
    (GoInt.wrap a)
  = GoInt.wrap (a + sum_quantities items).
Proof.
  revert a. induction items as [|i items IH]; intros a; cbn.
  - f_equal. lia.
  - change (GoInt.add (GoInt.wrap a) (Quantity i))
      with (GoInt.wrap (GoInt.wrap a + Quantity i)).
    rewrite wrap_add_wrap, IH. unfold sum_quantities. cbn. f_equal. lia.
Qed.

Lemma sum_positive items :
  Forall (fun item => 0 < Quantity item) items ->
  Z.of_nat (List.length items) <= sum_quantities items.
Proof.
  induction 1 as [|i items Hi Hall IH]; cbn [sum_quantities fold_right List.length].
  - reflexivity.
  - fold (sum_quantities items). lia.
Qed.

(** X15. [TotalQuantity] is the sum of the item quantities reduced to an
    [int] by wrap-around. When every quantity is positive, as
    [NewReservation] demands, and the sum fits in an [int], the total is that
    sum and is at least the number of items. *)
Theorem TotalQuantity_sum r :
  TotalQuantity r = GoInt.wrap (sum_quantities (Items r)) /\
  (Forall (fun item => 0 < Quantity item) (Items r) ->
   sum_quantities (Items r) <= GoInt.max_int ->
   TotalQuantity r = sum_quantities (Items r) /\
   Z.of_nat (List.length (Items r)) <= TotalQuantity r).
Proof.
  assert (TotalQuantity r = GoInt.wrap (sum_quantities (Items r))) as Htotal.
  { unfold TotalQuantity.
    change 0 with (GoInt.wrap 0) at 1. rewrite fold_add_wrap. reflexivity. }
  split; [exact Htotal|].
  intros Hpos Hfit. pose proof (sum_positive _ Hpos) as Hlen.
  rewrite Htotal, GoIntFacts.wrap_small.
  - split; [reflexivity | exact Hlen].
  - unfold GoInt.in_range.
    change GoInt.min_int with (-9223372036854775808). lia.
Qed.

Lemma TotalQuantity_sum_witness :
  TotalQuantity resv0 = 3 /\ 1 <= TotalQuantity resv0.
Proof.
  destruct (TotalQuantity_sum resv0) as (_ & Hfit).
  apply Hfit.
  - repeat constructor.
  - vm_compute. discriminate.
Defined.

End ResvQueries.

(** ** More on the outbox work queue *)

Module OutboxMore.
Import Outbox OutboxOps Samples OutboxFacts.

Lemma sorted_app_le (l1 l2 : list OutboxEntry) :
  StronglySorted created_at_le (l1 ++ l2) ->
  forall a b, In a l1 -> In b l2 -> CreatedAt a <= CreatedAt b.
Proof.
  induction l1 as [|x l1 IH]; cbn; intros Hs a b Ha Hb; [contradiction|].
  inversion Hs as [|? ? Hs' Hall]; subst.
  destruct Ha as [<- | Ha].
  - rewrite Forall_forall in Hall. apply Hall, in_or_app. right. exact Hb.
  - exact (IH Hs' a b Ha Hb).
Qed.

(** X16. The batch [fetchPendingEntries] returns is the head of the queue:
    together with the rows left behind it makes up exactly the selected rows
    (unpublished, below [MaxRetries], not locked), no returned row was created
    after a row left behind, and rows are left behind only when the batch is
    full. *)
Theorem fetchPendingEntries_head db config limit :
  0 <= limit ->
  let batch := fst (fetchPendingEntries db config limit) in
  exists rest,
    Permutation (batch ++ rest) (eligible db config) /\
    (forall a b, In a batch -> In b rest -> CreatedAt a <= CreatedAt b) /\
    (rest <> [] -> Z.of_nat (List.length batch) = limit).
Proof.
  intros Hlimit. unfold fetchPendingEntries.
  destruct (Z.ltb_spec limit 0) as [Hneg|_]; [lia|]. cbn [fst].
  fold (eligible db config).
  set (sorted := order_by_created_at (eligible db config)).
  exists (skipn (Z.to_nat limit) sorted).
  rewrite firstn_skipn. split; [|split].
  - symmetry. apply order_by_Permutation.
  - apply sorted_app_le. rewrite firstn_skipn. apply order_by_sorted.
  - intros Hrest. rewrite length_firstn.
    destruct (Nat.le_gt_cases (List.length sorted) (Z.to_nat limit)) as [Hle|Hgt].
    + exfalso. apply Hrest. apply skipn_all2. exact Hle.
    + rewrite Nat.min_l by lia. lia.
Qed.

Lemma fetchPendingEntries_head_witness :
  exists rest,
    Permutation (fst (fetchPendingEntries db0 DefaultOutboxConfig 1) ++ rest)
      (eligible db0 DefaultOutboxConfig) /\
    (forall a b,
       In a (fst (fetchPendingEntries db0 DefaultOutboxConfig 1)) ->
       In b rest -> CreatedAt a <= CreatedAt b) /\
    (rest <> [] ->
     Z.of_nat (List.length (fst (fetchPendingEntries db0 DefaultOutboxConfig 1)))
     = 1).
Proof.
  apply (fetchPendingEntries_head db0 DefaultOutboxConfig 1).
  vm_compute. discriminate.
Defined.

Lemma markBatch_locked db batch nows :
  locked (markBatch db batch nows) = locked db.
Proof.
  revert db nows. induction batch as [|b batch IH]; intros db nows; cbn.
  - reflexivity.
  - rewrite IH. reflexivity.
Qed.

(** A row of the table after a batch has been marked is a row of the table
    before, untouched if its id is not in the batch and published if it is. *)
Lemma markBatch_rows db batch nows e' :
  In e' (outbox (markBatch db batch nows)) ->
  (In e' (outbox db) /\ ~ In (ID e') (map ID batch)) \/
  (PublishedAt e' <> None).
Proof.
  revert db nows. induction batch as [|b batch IH]; intros db nows; cbn.
  - intros Hin. left. split; [exact Hin | tauto].
  - intros Hin. apply IH in Hin as [(Hin & Hnot) | Hpub]; [|right; exact Hpub].
    cbn in Hin. apply in_map_iff in Hin as (e & <- & He).
    destruct (String.eqb_spec (ID e) (ID b)) as [Heq|Hne].
    + right. discriminate.
    + left. split; [exact He|]. intros [Hb | Hrest]; [congruence | tauto].
Qed.

Lemma markBatch_keeps db batch nows e :
  In e (outbox db) -> ~ In (ID e) (map ID batch) ->
  In e (outbox (markBatch db batch nows)).
Proof.
  revert db nows. induction batch as [|b batch IH]; intros db nows; cbn.
  - tauto.
  - intros He Hnot. apply IH; [|tauto].
    cbn. apply in_map_iff. exists e. split; [|exact He].
    destruct (String.eqb_spec (ID e) (ID b)) as [Heq|Hne]; [|reflexivity].
    exfalso. apply Hnot. left. symmetry. exact Heq.
Qed.

Lemma eligible_In db config e :
  In e (eligible db config) <->
  In e (outbox db) /\ PublishedAt e = None /\
  RetryCount e < MaxRetries config /\ locked db (ID e) = false.
Proof.
  unfold eligible. rewrite filter_In, andb_true_iff, where_clause_true.
  unfold skip_locked. rewrite negb_true_iff. tauto.
Qed.

Lemma fetched_eligible db config limit e :
  In e (fst (fetchPendingEntries db config limit)) -> In e (eligible db config).
Proof.
  unfold fetchPendingEntries. destruct (limit <? 0); cbn; [contradiction|].
  intros He. apply firstn_In in He.
  exact (proj1 (order_by_In _ _) He).
Qed.

Lemma fetched_after_marking db config batch nows limit e :
  In e (fst (fetchPendingEntries (markBatch db batch nows) config limit)) ->
  ~ In (ID e) (map ID batch) /\ In e (eligible db config).
Proof.
  intros He. apply fetched_eligible, eligible_In in He.
  destruct He as (Hin & Hpub & Hretry & Hlock).
  rewrite markBatch_locked in Hlock.
  apply markBatch_rows in Hin as [(Hin & Hnot) | Hset]; [|congruence].
  split; [exact Hnot|]. apply eligible_In. tauto.
Qed.

(** X17. After [markAsPublished] has been run for the entries of a batch, no
    later fetch returns a row whose id is in the batch: what it returns are
    rows that were selectable before and were not touched. Selectable rows
    outside the batch stay selectable: marking loses no pending entry. *)
Theorem marked_rows_leave_queue db config batch nows :
  (forall limit e,
     In e (fst (fetchPendingEntries (markBatch db batch nows) config limit)) ->
     ~ In (ID e) (map ID batch) /\ In e (eligible db config)) /\
  (forall e,
     In e (eligible db config) -> ~ In (ID e) (map ID batch) ->
     In e (eligible (markBatch db batch nows) config)).
Proof.
  split.
  - intros limit e. apply fetched_after_marking.
  - intros e He Hnot. apply eligible_In in He.
    destruct He as (Hin & Hpub & Hretry & Hlock).
    apply eligible_In. rewrite markBatch_locked.
    split; [apply markBatch_keeps; assumption | tauto].
Qed.

Lemma marked_rows_leave_queue_witness :
  In (row "e1" 30 None 0)
     (eligible (markBatch db0 [row "e4" 5 None 1] clock0) DefaultOutboxConfig).
Proof.
  apply (proj2 (marked_rows_leave_queue db0 DefaultOutboxConfig
                  [row "e4" 5 None 1] clock0)).
  - vm_compute. left. reflexivity.
  - vm_compute. intros [H|H]; [discriminate H | exact H].
Defined.

(** X18. When the batch size covers every selectable row, fetching a batch
    and marking each of its entries published empties the queue: the next
    fetch returns no row. *)
Theorem outbox_drains db config limit nows :
  Z.of_nat (List.length (eligible db config)) <= limit ->
  let batch := fst (fetchPendingEntries db config limit) in
  fetchPendingEntries (markBatch db batch nows) config limit = ([], None).
Proof.
  intros Hlen batch.
  assert (forall e, In e (eligible db config) -> In e batch) as Hall.
  { intros e He. subst batch. unfold fetchPendingEntries.
    destruct (Z.ltb_spec limit 0) as [Hneg|_]; [lia|]. cbn [fst].
    fold (eligible db config). rewrite firstn_all2.
    - apply order_by_In. exact He.
    - rewrite <- (Permutation_length (order_by_Permutation _)). lia. }
  pose proof (fun e => fetched_after_marking db config batch nows limit e)
    as Hgone.
  unfold fetchPendingEntries in *.
  destruct (Z.ltb_spec limit 0) as [Hneg|_]; [lia|]. cbn [fst] in Hgone.
  f_equal.
  destruct (firstn (Z.to_nat limit) _) as [|e l] eqn:Hfetch at 1;
    [reflexivity|].
  exfalso. destruct (Hgone e) as [Hnot He].
  - rewrite Hfetch. left. reflexivity.
  - apply Hnot, in_map, Hall, He.
Qed.

Lemma outbox_drains_witness :
  fetchPendingEntries
    (markBatch db0 (fst (fetchPendingEntries db0 DefaultOutboxConfig 5)) clock0)
    DefaultOutboxConfig 5
  = ([], None).
Proof.
  apply (outbox_drains db0 DefaultOutboxConfig 5 clock0).
  vm_compute. discriminate.
Defined.

End OutboxMore.

(** ** The retry backoff *)

Module KafkaFacts.
Import Kafka.

Lemma shift_one_small rc : 0 <= rc < 63 -> shift_one rc = 2 ^ rc.
Proof.
  intros Hrc. unfold shift_one, to_uint.
  change GoInt.modulus with 18446744073709551616.
  change GoInt.bits with 64.
  rewrite Z.mod_small by lia.
  destruct (Z.ltb_spec rc 64); [|lia].
  apply GoIntFacts.wrap_small. unfold GoInt.in_range.
  change GoInt.min_int with (-9223372036854775808).
  change GoInt.max_int with (2 ^ 63 - 1).
  assert (0 < 2 ^ rc) by (apply Z.pow_pos_nonneg; lia).
  assert (2 ^ rc < 2 ^ 63) by (apply Z.pow_lt_mono_r; lia).
  lia.
Qed.

Lemma shift_one_large rc :
  GoInt.in_range rc -> rc < 0 \/ 64 <= rc -> shift_one rc = 0.
Proof.
  unfold GoInt.in_range, shift_one, to_uint.
  change GoInt.min_int with (-9223372036854775808).
  change GoInt.max_int with 9223372036854775807.
  change GoInt.modulus with 18446744073709551616.
  change GoInt.bits with 64.
  intros Hrange [Hneg|Hbig].
  - replace (rc mod 18446744073709551616) with (rc + 18446744073709551616).
    + destruct (Z.ltb_spec (rc + 18446744073709551616) 64); [lia|reflexivity].
    + apply Z.mod_unique with (q := -1); lia.
  - rewrite Z.mod_small by lia.
    destruct (Z.ltb_spec rc 64); [lia|reflexivity].
Qed.

Lemma power_fits rc : 0 <= rc -> 2 ^ rc <= GoInt.max_int -> rc < 63.
Proof.
  intros Hrc Hfit. destruct (Z.lt_ge_cases rc 63) as [|Hge]; [assumption|].
  exfalso. assert (2 ^ 63 <= 2 ^ rc) by (apply Z.pow_le_mono_r; lia).
  change GoInt.max_int with (2 ^ 63 - 1) in Hfit. lia.
Qed.

(** X19. [calculateBackoff] never returns more than [MaxBackoff]. For a
    retry count [n >= 0] and a positive [RetryBackoff] whose product with
    [2^n] fits in an [int64] it returns the smaller of [RetryBackoff * 2^n]
    and [MaxBackoff], so it does not decrease from one retry to the next.
    For a retry count of 64 or more, or a negative one, the shift gives 0 and
    the result is the smaller of 0 and [MaxBackoff]. *)
Theorem calculateBackoff_spec kafkaConfig rc :
  calculateBackoff kafkaConfig rc <= MaxBackoff kafkaConfig /\
  (0 <= rc -> 0 < RetryBackoff kafkaConfig ->
   RetryBackoff kafkaConfig * 2 ^ rc <= GoInt.max_int ->
   calculateBackoff kafkaConfig rc
   = Z.min (RetryBackoff kafkaConfig * 2 ^ rc) (MaxBackoff kafkaConfig) /\
   forall rc', 0 <= rc' <= rc ->
     calculateBackoff kafkaConfig rc' <= calculateBackoff kafkaConfig rc) /\
  (GoInt.in_range rc -> rc < 0 \/ 64 <= rc ->
   calculateBackoff kafkaConfig rc = Z.min 0 (MaxBackoff kafkaConfig)).
Proof.
  assert (forall n, 0 <= n -> 0 < RetryBackoff kafkaConfig ->
            RetryBackoff kafkaConfig * 2 ^ n <= GoInt.max_int ->
            calculateBackoff kafkaConfig n
            = Z.min (RetryBackoff kafkaConfig * 2 ^ n) (MaxBackoff kafkaConfig))
    as Hexact.
  { intros n Hn Hpos Hfit.
    assert (0 < 2 ^ n) as Hpow by (apply Z.pow_pos_nonneg; lia).
    assert (n < 63) as Hsmall by (apply power_fits; [assumption | nia]).
    unfold calculateBackoff. rewrite shift_one_small by lia.
    rewrite GoIntFacts.wrap_small.
    - destruct (Z.ltb_spec (MaxBackoff kafkaConfig)
                  (RetryBackoff kafkaConfig * 2 ^ n)); lia.
    - unfold GoInt.in_range.
      change GoInt.min_int with (-9223372036854775808). nia. }
  split; [|split].
  - unfold calculateBackoff.
    destruct (Z.ltb_spec (MaxBackoff kafkaConfig)
                (GoInt.wrap (RetryBackoff kafkaConfig * shift_one rc))); lia.
  - intros Hrc Hpos Hfit. split; [apply Hexact; assumption|].
    intros rc' Hrc'.
    assert (2 ^ rc' <= 2 ^ rc) as Hmono by (apply Z.pow_le_mono_r; lia).
    assert (0 < 2 ^ rc') by (apply Z.pow_pos_nonneg; lia).
    rewrite (Hexact rc) by assumption.
    rewrite (Hexact rc') by (try lia; nia).
    apply Z.min_le_compat_r. nia.
  - intros Hrange Hout. unfold calculateBackoff.
    rewrite shift_one_large by assumption. rewrite Z.mul_0_r.
    change (GoInt.wrap 0) with 0.
    destruct (Z.ltb_spec (MaxBackoff kafkaConfig) 0); lia.
Qed.

Lemma calculateBackoff_spec_witness :
  calculateBackoff DefaultConfig 3 = Z.min (100 * Millisecond * 2 ^ 3) (10 * Second)
  /\ calculateBackoff DefaultConfig 64 = Z.min 0 (10 * Second).
Proof.
  destruct (calculateBackoff_spec DefaultConfig 3) as (_ & Hexact & _).
  destruct (calculateBackoff_spec DefaultConfig 64) as (_ & _ & Hzero).
  split.
  - apply Hexact; vm_compute; (discriminate || reflexivity).
  - apply Hzero.
    + vm_compute. split; discriminate.
    + right. vm_compute. discriminate.
Defined.

End KafkaFacts.

(** ** Products, warehouses, alerts and movements *)

Module ProdFacts.
Import Prod MoreSamples.

Lemma product_call_outcome k p c p' e c' :
  call k p c = ((p', e), c') ->
  p' = p \/
  (DeletedAt p = None /\
   exists name description category variant minStock t,
     name <> "" /\ 0 <= minStock /\
     p' = mkProduct (ID p) (SKU p) name description variant category minStock
            (IsActive p) (CreatedAt p) t None) \/
  (DeletedAt p = None /\
   exists t,
     p' = mkProduct (ID p) (SKU p) (Name p) (Description p) (Variant p)
            (Category p) (MinStock p) false (CreatedAt p) t (Some t)).
Proof.
  destruct k as [name description category variant minStock|];
    cbv [call Update SoftDelete bind ret time_Now];
    destruct (DeletedAt p) eqn:Hdel;
    try (intros Hrun; injection Hrun as <- _ _; auto; fail).
  - destruct (String.eqb_spec name "") as [Hn|Hn];
      [intros Hrun; injection Hrun as <- _ _; auto|].
    destruct (Z.ltb_spec minStock 0) as [Hm|Hm];
      intros Hrun; injection Hrun as <- _ _; [auto|].
    right. left. split; [reflexivity|].
    do 6 eexists. split; [exact Hn|]. split; [exact Hm | reflexivity].
  - intros Hrun; injection Hrun as <- _ _.
    right. right. split; [reflexivity|]. eexists. reflexivity.
Qed.

(** X20. Every value a product takes, from [NewProduct] on and through any
    calls of [Update] and [SoftDelete], has a non-empty [ID], [SKU] and
    [Name] and a [MinStock] that is not negative, and is active exactly when
    it has not been deleted. *)
Theorem product_invariant p :
  lifecycle p ->
  ID p <> "" /\ SKU p <> "" /\ Name p <> "" /\ 0 <= MinStock p /\
  (IsActive p = true <-> DeletedAt p = None) /\
  IsDeleted p = negb (IsActive p).
Proof.
  induction 1 as [id sku name description category variant minStock c p c' Hnew
                 | k p c p' e c' Hlife IH Hcall].
  - unfold NewProduct in Hnew.
    destruct (String.eqb_spec id ""); [discriminate|].
    destruct (String.eqb_spec sku ""); [discriminate|].
    destruct (String.eqb_spec name ""); [discriminate|].
    destruct (Z.ltb_spec minStock 0); [discriminate|].
    injection Hnew as <- _. cbn. repeat split; auto.
  - destruct IH as (Hid & Hsku & Hname & Hmin & Hact & Hdel).
    apply product_call_outcome in Hcall.
    destruct Hcall as [-> | [(Hnone & name & d & cat & v & ms & t & Hn & Hm & ->)
                            | (Hnone & t & ->)]].
    + repeat split; tauto.
    + unfold IsDeleted in *. rewrite Hnone in *. cbn.
      repeat split; auto; tauto.
    + cbn. repeat split; auto; discriminate.
Qed.

Lemma product_invariant_witness :
  Name (fst (fst (SoftDelete
    product0 Samples.clock0))) <> "".
Proof.
  apply product_invariant.
  apply (lifecycle_call CallSoftDelete
           product0
           Samples.clock0 _ None (fun n => Samples.clock0 (S n))).
  - apply (lifecycle_new "p1" "sku-1" "Shirt" "" "apparel"
             (mkProductVariant "M" "blue") 5 Samples.clock0 _
             (fun n => Samples.clock0 (S n))).
    reflexivity.
  - reflexivity.
Defined.

(** X21. Deletion of a product is final. [SoftDelete] succeeds on a product
    that is not deleted, sets [DeletedAt] and [UpdatedAt] to the current time
    and clears [IsActive]; after that every [Update] and every [SoftDelete]
    returns [ErrProductDeleted] and changes nothing, whatever the arguments. *)
Theorem SoftDelete_final p c :
  DeletedAt p = None ->
  exists p',
    SoftDelete p c = ((p', None), fun n => c (S n)) /\
    DeletedAt p' = Some (c 0%nat) /\ UpdatedAt p' = c 0%nat /\
    IsActive p' = false /\ IsDeleted p' = true /\
    forall k c2, call k p' c2 = ((p', Some ErrProductDeleted), c2).
Proof.
  intros Hnone. unfold SoftDelete. rewrite Hnone.
  cbv [bind ret time_Now]. eexists. split; [reflexivity|].
  cbn. repeat split. intros k c2. destruct k; reflexivity.
Qed.

Lemma SoftDelete_final_witness :
  exists p',
    SoftDelete product0 Samples.clock0
    = ((p', None), fun n => Samples.clock0 (S n)) /\
    IsDeleted p' = true.
Proof.
  destruct (SoftDelete_final
              product0 Samples.clock0)
    as (p' & Hrun & _ & _ & _ & Hdel & _).
  - reflexivity.
  - exists p'. split; [exact Hrun | exact Hdel].
Defined.

End ProdFacts.

Module WhFacts.
Import Wh MoreSamples.

Lemma warehouse_call_outcome k w c w' e c' :
  call k w c = ((w', e), c') ->
  w' = w \/
  (DeletedAt w = None /\
   exists name address t,
     name <> "" /\
     w' = mkWarehouse (ID w) (Code w) name address (IsActive w)
            (CreatedAt w) t None) \/
  (DeletedAt w = None /\
   exists t,
     w' = mkWarehouse (ID w) (Code w) (Name w) (Address w) false
            (CreatedAt w) t (Some t)).
Proof.
  destruct k as [name address|];
    cbv [call Update SoftDelete bind ret time_Now];
    destruct (DeletedAt w) eqn:Hdel;
    try (intros Hrun; injection Hrun as <- _ _; auto; fail).
  - destruct (String.eqb_spec name "") as [Hn|Hn];
      intros Hrun; injection Hrun as <- _ _; [auto|].
    right. left. split; [reflexivity|].
    do 3 eexists. split; [exact Hn | reflexivity].
  - intros Hrun; injection Hrun as <- _ _.
    right. right. split; [reflexivity|]. eexists. reflexivity.
Qed.

(** X22. Every value a warehouse takes, from [NewWarehouse] on and through
    any calls of [Update] and [SoftDelete], has a non-empty [ID], [Code] and
    [Name] and is active exactly when it has not been deleted; once it is
    deleted every [Update] and [SoftDelete] returns [ErrWarehouseDeleted] and
    changes nothing. *)
Theorem warehouse_invariant w :
  lifecycle w ->
  ID w <> "" /\ Code w <> "" /\ Name w <> "" /\
  (IsActive w = true <-> DeletedAt w = None) /\
  (IsDeleted w = true ->
   forall k c, call k w c = ((w, Some ErrWarehouseDeleted), c)).
Proof.
  intros Hlife.
  assert (ID w <> "" /\ Code w <> "" /\ Name w <> "" /\
          (IsActive w = true <-> DeletedAt w = None)) as Hinv.
  { induction Hlife as [id code name address c w c' Hnew
                       | k w c w' e c' Hlife IH Hcall].
    - unfold NewWarehouse in Hnew.
      destruct (String.eqb_spec id ""); [discriminate|].
      destruct (String.eqb_spec code ""); [discriminate|].
      destruct (String.eqb_spec name ""); [discriminate|].
      injection Hnew as <- _. cbn. repeat split; auto.
    - destruct IH as (Hid & Hcode & Hname & Hact).
      apply warehouse_call_outcome in Hcall.
      destruct Hcall as [-> | [(Hnone & name & a & t & Hn & ->)
                              | (Hnone & t & ->)]].
      + repeat split; tauto.
      + rewrite Hnone in *. cbn. repeat split; auto; tauto.
      + cbn. repeat split; auto; discriminate. }
  destruct Hinv as (Hid & Hcode & Hname & Hact).
  repeat split; try tauto.
  unfold IsDeleted. intros Hdel k c.
  destruct k; cbv [call Update SoftDelete bind ret];
    destruct (DeletedAt w); (discriminate || reflexivity).
Qed.

Lemma warehouse_invariant_witness :
  Code (fst (fst (Update "Depot North"
    (mkWarehouseAddress "1 Dock Rd" "Leeds" "" "GB" "LS1")
    warehouse0 Samples.clock0))) <> "".
Proof.
  apply warehouse_invariant.
  apply (lifecycle_call
           (CallUpdate "Depot North"
              (mkWarehouseAddress "1 Dock Rd" "Leeds" "" "GB" "LS1"))
           warehouse0
           Samples.clock0 _ None (fun n => Samples.clock0 (S n))).
  - apply (lifecycle_new "w1" "LDS" "Depot"
             (mkWarehouseAddress "" "" "" "" "") Samples.clock0 _
             (fun n => Samples.clock0 (S n))).
    reflexivity.
  - reflexivity.
Defined.

End WhFacts.

Module AlertFacts.
Import Alert MoreSamples.

Lemma alert_call_outcome k a c a' e c' :
  call k a c = ((a', e), c') ->
  a' = a \/
  (Status a <> AlertStatusResolved /\
   exists userID t,
     a' = mkLowStockAlert (ID a) (StockItemID a) (ProductID a) (WarehouseID a)
            (CurrentQuantity a) (ReorderPoint a) AlertStatusAcknowledged
            (Some userID) (Some t) (ResolvedAt a) (CreatedAt a) t) \/
  (Status a <> AlertStatusResolved /\
   exists t,
     a' = mkLowStockAlert (ID a) (StockItemID a) (ProductID a) (WarehouseID a)
            (CurrentQuantity a) (ReorderPoint a) AlertStatusResolved
            (AcknowledgedBy a) (AcknowledgedAt a) (Some t) (CreatedAt a) t).
Proof.
  destruct k as [userID|];
    cbv [call Acknowledge Resolve bind ret time_Now];
    destruct (String.eqb_spec (Status a) AlertStatusResolved) as [Hs|Hs];
    intros Hrun; injection Hrun as <- _ _; auto.
  - right. left. split; [exact Hs|]. do 2 eexists. reflexivity.
  - right. right. split; [exact Hs|]. eexists. reflexivity.
Qed.

(** X23. Every value a low-stock alert takes, from [NewLowStockAlert] on and
    through any calls of [Acknowledge] and [Resolve], has one of the three
    declared statuses, has [ResolvedAt] set exactly when it is [RESOLVED],
    has [AcknowledgedBy] and [AcknowledgedAt] set together, and both set when
    it is [ACKNOWLEDGED]. *)
Theorem alert_invariant a :
  lifecycle a ->
  (Status a = AlertStatusActive \/ Status a = AlertStatusAcknowledged \/
   Status a = AlertStatusResolved) /\
  (ResolvedAt a <> None <-> Status a = AlertStatusResolved) /\
  (AcknowledgedBy a <> None <-> AcknowledgedAt a <> None) /\
  (Status a = AlertStatusAcknowledged -> AcknowledgedBy a <> None) /\
  (Status a = AlertStatusActive -> AcknowledgedBy a = None).
Proof.
  induction 1 as [id stockItemID productID warehouseID cq rp c a c' Hnew
                 | k a c a' e c' Hlife IH Hcall].
  - unfold NewLowStockAlert in Hnew.
    destruct (String.eqb_spec id ""); [discriminate|].
    destruct (String.eqb_spec stockItemID ""); [discriminate|].
    destruct (String.eqb_spec productID ""); [discriminate|].
    destruct (String.eqb_spec warehouseID ""); [discriminate|].
    injection Hnew as <- _. cbn.
    repeat split; auto; try discriminate;
      intros Hn; contradiction Hn; reflexivity.
  - destruct IH as (Hk & Hres & Hack & Hst & Hact).
    apply alert_call_outcome in Hcall.
    destruct Hcall as [-> | [(Hnot & userID & t & ->) | (Hnot & t & ->)]].
    + repeat split; tauto.
    + cbn. assert (ResolvedAt a = None) as ->.
      { destruct (ResolvedAt a); [|reflexivity].
        exfalso. apply Hnot, Hres. discriminate. }
      repeat split; auto; try discriminate;
        intros Hn; contradiction Hn; reflexivity.
    + cbn. repeat split; auto; try discriminate; try tauto.
Qed.

Lemma alert_invariant_witness :
  AcknowledgedBy (fst (fst (Acknowledge "user-7" alert0 Samples.clock0)))
  <> None.
Proof.
  destruct (alert_invariant
              (fst (fst (Acknowledge "user-7" alert0 Samples.clock0))))
    as (_ & _ & _ & Hst & _).
  - apply (lifecycle_call (CallAcknowledge "user-7") alert0 Samples.clock0 _
             None (fun n => Samples.clock0 (S n))).
    + apply (lifecycle_new "alert-1" "stock-1" "product-1" "warehouse-1" 2 3
               Samples.clock0 alert0 (fun n => Samples.clock0 (S n))).
      reflexivity.
    + reflexivity.
  - apply Hst. reflexivity.
Defined.

(** X24. Resolution of an alert is final, acknowledgement is not: [Resolve]
    on an alert that is not [RESOLVED] succeeds, keeping who acknowledged it,
    and afterwards every [Acknowledge] and [Resolve] returns
    [ErrAlertAlreadyResolved] and changes nothing; [Acknowledge] on an alert
    that is not [RESOLVED] always succeeds, also on one already acknowledged,
    and records the latest user and time. *)
Theorem Resolve_final a c :
  Status a <> AlertStatusResolved ->
  (exists a',
     Resolve a c = ((a', None), fun n => c (S n)) /\
     Status a' = AlertStatusResolved /\ ResolvedAt a' = Some (c 0%nat) /\
     AcknowledgedBy a' = AcknowledgedBy a /\
     forall k c2, call k a' c2 = ((a', Some ErrAlertAlreadyResolved), c2)) /\
  (forall userID,
   exists a',
     Acknowledge userID a c = ((a', None), fun n => c (S n)) /\
     Status a' = AlertStatusAcknowledged /\
     AcknowledgedBy a' = Some userID /\ AcknowledgedAt a' = Some (c 0%nat)).
Proof.
  intros Hs. split.
  - unfold Resolve.
    destruct (String.eqb_spec (Status a) AlertStatusResolved);
      [contradiction|].
    cbv [bind ret time_Now]. eexists. split; [reflexivity|]. cbn.
    repeat split. intros k c2. destruct k; reflexivity.
  - intros userID. unfold Acknowledge.
    destruct (String.eqb_spec (Status a) AlertStatusResolved);
      [contradiction|].
    cbv [bind ret time_Now]. eexists. split; [reflexivity|]. cbn.
    repeat split.
Qed.

Lemma Resolve_final_witness :
  exists a',
    Acknowledge "user-9"
      (fst (fst (Acknowledge "user-7" alert0 Samples.clock0))) Samples.clock0
    = ((a', None), fun n => Samples.clock0 (S n)) /\
    Status a' = AlertStatusAcknowledged /\
    AcknowledgedBy a' = Some "user-9" /\
    AcknowledgedAt a' = Some (Samples.clock0 0%nat).
Proof.
  destruct (Resolve_final
              (fst (fst (Acknowledge "user-7" alert0 Samples.clock0)))
              Samples.clock0) as [_ Hack].
  - vm_compute. discriminate.
  - apply Hack.
Defined.

End AlertFacts.

Module MovementFacts.
Import Movement.

(** X25. [NewStockMovement] returns a movement exactly when [id] and
    [stockItemID] are not empty, the movement type is one of the six
    declared ones and the quantity is not zero. The movement holds every
    argument as given, the four before and after counters included, which are
    not checked against the quantity or against each other. *)
Theorem NewStockMovement_spec id stockItemID mt q refID refType
    prevOnHand newOnHand prevReserved newReserved reason createdBy c :
  let '(res, err, c') :=
    NewStockMovement id stockItemID mt q refID refType prevOnHand newOnHand
      prevReserved newReserved reason createdBy c in
  (err = None <->
     id <> "" /\ stockItemID <> "" /\
     In mt [MovementTypeReplenishment; MovementTypeReservation;
            MovementTypeRelease; MovementTypeFulfillment;
            MovementTypeAdjustment; MovementTypeTransfer] /\
     q <> 0) /\
  (err = None ->
     res = Some (mkStockMovement id stockItemID mt q refID refType prevOnHand
                   newOnHand prevReserved newReserved reason createdBy
                   (c 0%nat)) /\
     c' = (fun n => c (S n))) /\
  (err <> None -> res = None /\ c' = c).
Proof.
  assert (isValidMovementType mt = true <->
          In mt [MovementTypeReplenishment; MovementTypeReservation;
                 MovementTypeRelease; MovementTypeFulfillment;
                 MovementTypeAdjustment; MovementTypeTransfer]) as Hvalid.
  { unfold isValidMovementType.
    destruct (existsb _ _) eqn:Hex.
    - split; [intros _|reflexivity].
      apply existsb_exists in Hex as (x & Hin & Heq).
      apply String.eqb_eq in Heq. subst x. exact Hin.
    - split; [discriminate|]. intros Hin. exfalso.
      assert (existsb (String.eqb mt)
                [MovementTypeReplenishment; MovementTypeReservation;
                 MovementTypeRelease; MovementTypeFulfillment;
                 MovementTypeAdjustment; MovementTypeTransfer] = true) as Ht.
      { apply existsb_exists. exists mt. split; [exact Hin|].
        apply String.eqb_refl. }
      congruence. }
  unfold NewStockMovement.
  destruct (String.eqb_spec id "") as [Hid|Hid];
    [cbn; repeat split; try discriminate; tauto|].
  destruct (String.eqb_spec stockItemID "") as [Hs|Hs];
    [cbn; repeat split; try discriminate; tauto|].
  destruct (isValidMovementType mt) eqn:Hmt; cbn [negb].
  - destruct (Z.eqb_spec q 0) as [Hq|Hq];
      [cbn; repeat split; try discriminate; tauto|].
    cbn. split; [|split].
    + split; [|reflexivity]. intros _. repeat split; auto.
      apply Hvalid. reflexivity.
    + intros _. split; reflexivity.
    + intros Hn. contradiction Hn. reflexivity.
  - cbn. repeat split; try discriminate.
    intros (_ & _ & Hin & _). apply Hvalid in Hin. discriminate.
Qed.

End MovementFacts.

(** ** Role-based access control *)

Module RbacFacts.
Import Rbac.

Lemma granted_In perms permission :
  granted perms permission = true <-> In permission perms.
Proof.
  unfold granted. rewrite existsb_exists. split.
  - intros (x & Hin & Heq). apply String.eqb_eq in Heq. subst x. exact Hin.
  - intros Hin. exists permission. split; [exact Hin | apply String.eqb_refl].
Qed.

Lemma role_grants roles role permission :
  In role roles -> hasPermission [role] permission = true ->
  hasPermission roles permission = true.
Proof.
  intros Hin Hp. cbn [hasPermission] in Hp.
  induction roles as [|r roles IH]; [contradiction|]. cbn [hasPermission].
  destruct Hin as [-> | Hin].
  - destruct (lookup role RolePermissions) as [perms|]; [|discriminate].
    destruct (granted perms permission); [reflexivity | discriminate].
  - destruct (lookup r RolePermissions) as [perms|]; [|exact (IH Hin)].
    destruct (granted perms permission); [reflexivity | exact (IH Hin)].
Qed.

(** X26. [hasPermission] answers true exactly when one of the roles is a key
    of [RolePermissions] whose list holds the permission. So it is false for
    an empty role list, a role the table does not know grants nothing, and
    the answer for two role lists put together is the disjunction of the
    answers for each. *)
Theorem hasPermission_spec roles permission :
  (hasPermission roles permission = true <->
   exists role perms,
     In role roles /\ lookup role RolePermissions = Some perms /\
     In permission perms) /\
  (forall more,
     hasPermission (roles ++ more) permission
     = hasPermission roles permission || hasPermission more permission).
Proof.
  split.
  - induction roles as [|role roles IH]; cbn [hasPermission].
    + split; [discriminate|]. intros (r & ps & [] & _).
    + destruct (lookup role RolePermissions) as [perms|] eqn:Hl.
      * destruct (granted perms permission) eqn:Hg.
        -- split; [intros _|reflexivity].
           exists role, perms. split; [left; reflexivity|].
           split; [exact Hl | apply granted_In, Hg].
        -- rewrite IH. split.
           ++ intros (r & ps & Hin & Hr & Hp). exists r, ps.
              split; [right; exact Hin | tauto].
           ++ intros (r & ps & [<- | Hin] & Hr & Hp).
              ** rewrite Hl in Hr. injection Hr as <-.
                 apply granted_In in Hp. congruence.
              ** exists r, ps. tauto.
      * rewrite IH. split.
        -- intros (r & ps & Hin & Hr & Hp). exists r, ps.
           split; [right; exact Hin | tauto].
        -- intros (r & ps & [<- | Hin] & Hr & Hp); [congruence|].
           exists r, ps. tauto.
  - intros more.
    induction roles as [|role roles IH]; cbn [hasPermission app];
      [reflexivity|].
    destruct (lookup role RolePermissions) as [perms|]; [|exact IH].
    destruct (granted perms permission); [reflexivity | exact IH].
Qed.

Ltac one_of_list H :=
  cbn in H;
  repeat match type of H with
    | _ \/ _ => destruct H as [H | H]
    end;
  try contradiction; subst; reflexivity.

(** X27. The roles are nested: whatever [read_only] may do
    [warehouse_staff] may do, whatever [warehouse_staff] may do
    [inventory_manager] may do, and [admin] may do whatever
    [inventory_manager] or [order_service] may do. [read_only] is granted
    nothing but the six read permissions. *)
Theorem role_hierarchy permission :
  (hasPermission [RoleReadOnly] permission = true ->
   hasPermission [RoleWarehouseStaff] permission = true) /\
  (hasPermission [RoleWarehouseStaff] permission = true ->
   hasPermission [RoleInventoryManager] permission = true) /\
  (hasPermission [RoleInventoryManager] permission = true ->
   hasPermission [RoleAdmin] permission = true) /\
  (hasPermission [RoleOrderService] permission = true ->
   hasPermission [RoleAdmin] permission = true) /\
  (hasPermission [RoleReadOnly] permission = true ->
   In permission
     [PermissionProductRead; PermissionWarehouseRead; PermissionStockItemRead;
      PermissionReservationRead; PermissionMovementRead; PermissionAlertRead]).
Proof.
  assert (forall role perms,
            lookup role RolePermissions = Some perms ->
            hasPermission [role] permission = true -> In permission perms)
    as Hin.
  { intros role perms Hl Hp. cbn [hasPermission] in Hp. rewrite Hl in Hp.
    destruct (granted perms permission) eqn:Hg; [|discriminate].
    apply granted_In, Hg. }
  repeat split; intros Hp.
  - apply (Hin RoleReadOnly _ eq_refl) in Hp. one_of_list Hp.
  - apply (Hin RoleWarehouseStaff _ eq_refl) in Hp. one_of_list Hp.
  - apply (Hin RoleInventoryManager _ eq_refl) in Hp. one_of_list Hp.
  - apply (Hin RoleOrderService _ eq_refl) in Hp. one_of_list Hp.
  - exact (Hin RoleReadOnly _ eq_refl Hp).
Qed.

Lemma role_hierarchy_witness :
  hasPermission [RoleWarehouseStaff] PermissionAlertRead = true.
Proof.
  apply (proj1 (role_hierarchy PermissionAlertRead)). reflexivity.
Defined.

Lemma prefix_app sub a b :
  String.prefix sub a = true -> String.prefix sub (a ++ b) = true.
Proof.
  revert a. induction sub as [|x sub IH]; intros a Hp;
    [destruct (a ++ b)%string; reflexivity|].
  destruct a as [|y a]; cbn in *; [discriminate|].
  destruct (Ascii.ascii_dec x y); [apply IH, Hp | discriminate].
Qed.

Lemma Contains_app s rest sub :
  Contains s sub = true -> Contains (s ++ rest) sub = true.
Proof.
  induction s as [|x s IH]; cbn [Contains append].
  - destruct (String.prefix sub "") eqn:Hp; [|discriminate].
    intros _. destruct sub; [|discriminate Hp].
    destruct rest; reflexivity.
  - destruct (String.prefix sub (String x s)) eqn:Hp.
    + intros _.
      change (String x (s ++ rest)) with (String x s ++ rest)%string.
      rewrite (prefix_app _ _ rest Hp). reflexivity.
    + intros Hc.
      destruct (String.prefix sub (String x (s ++ rest))); [reflexivity|].
      exact (IH Hc).
Qed.

(** X28. In [getRequiredPermission] the special cases come before the
    endpoint table: a path containing "/release" requires
    [reservation:release] under every method, and a GET on a path containing
    "/stock" but neither "/release" nor "/fulfill" requires [stock_item:read].
    So a GET below "/api/v1/stock-movements" requires [stock_item:read], not
    the [movement:read] of the table, and [Middleware] lets [order_service]
    through, a role without [movement:read]. *)
Theorem getRequiredPermission_special_cases method path :
  (Contains path "/release" = true ->
   getRequiredPermission method path = PermissionReservationRelease) /\
  (Contains path "/release" = false -> Contains path "/fulfill" = false ->
   Contains path "/stock" = true ->
   getRequiredPermission MethodGet path = PermissionStockItemRead) /\
  (forall rest,
     let below := ("/api/v1/stock-movements" ++ rest)%string in
     Contains below "/release" = false -> Contains below "/fulfill" = false ->
     getRequiredPermission MethodGet below = PermissionStockItemRead /\
     hasPermission [RoleOrderService] PermissionMovementRead = false /\
     Middleware [RoleOrderService] MethodGet below = Next).
Proof.
  split; [|split].
  - intros Hr. unfold getRequiredPermission. rewrite Hr. reflexivity.
  - intros Hr Hf Hs. unfold getRequiredPermission. rewrite Hr, Hf, Hs.
    reflexivity.
  - intros rest below Hr Hf.
    assert (Contains below "/stock" = true) as Hs
      by (apply Contains_app; reflexivity).
    assert (getRequiredPermission MethodGet below = PermissionStockItemRead)
      as Hreq
      by (unfold getRequiredPermission; rewrite Hr, Hf, Hs; reflexivity).
    split; [exact Hreq|]. split; [reflexivity|].
    unfold Middleware. cbn [List.length Nat.eqb]. rewrite Hreq. reflexivity.
Qed.

Lemma getRequiredPermission_special_cases_witness :
  getRequiredPermission MethodGet "/api/v1/stock-movements?page=2"
  = PermissionStockItemRead /\
  hasPermission [RoleOrderService] PermissionMovementRead = false /\
  Middleware [RoleOrderService] MethodGet "/api/v1/stock-movements?page=2"
  = Next.
Proof.
  apply (proj2 (proj2 (getRequiredPermission_special_cases MethodGet ""))
           "?page=2"); reflexivity.
Defined.

Lemma firstEndpoint_declared method path eps :
  firstEndpoint method path eps = "" \/
  In (firstEndpoint method path eps) (map Required eps).
Proof.
  induction eps as [|ep eps IH]; cbn; [left; reflexivity|].
  destruct (String.eqb (Method ep) method && HasPrefix path (PathPrefix ep)).
  - right. left. reflexivity.
  - destruct IH as [IH|IH]; [left; exact IH | right; right; exact IH].
Qed.

(** X29. [Middleware] refuses every request that carries no role. A request
    that carries the role [admin], alone or among others, is handed to the
    next handler whatever its method and path: every permission
    [getRequiredPermission] can ask for is granted to [admin]. *)
Theorem Middleware_admin method path :
  Middleware [] method path = Forbidden "no roles assigned" /\
  (forall roles, In RoleAdmin roles -> Middleware roles method path = Next).
Proof.
  split; [reflexivity|].
  intros roles Hadmin. unfold Middleware.
  destruct roles as [|r roles]; [contradiction|]. cbn [List.length Nat.eqb].
  destruct (String.eqb_spec (getRequiredPermission method path) "");
    [reflexivity|].
  assert (hasPermission [RoleAdmin] (getRequiredPermission method path) = true)
    as Hgrant.
  { unfold getRequiredPermission in *.
    destruct (Contains path "/release"); [reflexivity|].
    destruct (Contains path "/fulfill"); [reflexivity|].
    destruct (Contains path "/stock" && String.eqb method MethodGet);
      [reflexivity|].
    destruct (Contains path "/movements"); [reflexivity|].
    destruct (firstEndpoint_declared method path EndpointPermissions)
      as [Hempty | Hin]; [contradiction|].
    revert Hin. generalize (firstEndpoint method path EndpointPermissions).
    intros p Hin. one_of_list Hin. }
  assert (hasPermission (r :: roles) (getRequiredPermission method path) = true)
    as ->; [|reflexivity].
  apply role_grants with (role := RoleAdmin); assumption.
Qed.

End RbacFacts.
